(** * itunes.js: the command dispatcher of [src/lib/itunes.js]

    A shallow embedding of the eleven exported operations.  Every operation
    is [async (...) => new Promise((resolve, reject) => ...)]: an executor
    that runs at once, may submit one script to the scripting bridge
    ([OSA.execute] / [OSA.executeFile]) together with a callback, and a
    callback that the bridge runs later with its reply [(error, output)].

    The embedding keeps this shape: executors live in a state-and-exception
    monad over a [world] (the promise, the console and the bridge's queue),
    callbacks in the same monad over the [cell] their closure captures. *)

From stdpp Require Import base strings gmap list pretty.

(** ** JavaScript values *)

(** The values that cross the module's boundary: caller arguments and bridge
    replies.  Numbers are the integer-valued ones, [VNum n] standing for
    the double nearest to [n]; objects are plain data objects: their
    prototype is [Object.prototype], their own properties are data
    properties with string keys, and no value is a function. *)
#[warnings="-register-all"] Inductive value : Type :=
  | VUndefined
  | VNull
  | VBool (b : bool)
  | VNum (n : Z)
  | VStr (s : string)
  | VArr (elems : list value)
  | VObj (props : gmap string value).

(** The double-quote character, which the templates of the source contain. *)
Definition dq : string := String (Ascii.ascii_of_nat 34) EmptyString.

(** [typeof v] *)
Definition typeof (v : value) : string :=
  match v with
  | VUndefined => "undefined"
  | VNull => "object"
  | VBool _ => "boolean"
  | VNum _ => "number"
  | VStr _ => "string"
  | VArr _ => "object"
  | VObj _ => "object"
  end.

(** Truthiness, as tested by [if (v)] and [v ? a : b]. *)
Definition ToBoolean (v : value) : bool :=
  match v with
  | VUndefined => false
  | VNull => false
  | VBool b => b
  | VNum n => negb (n =? 0)%Z
  | VStr s => negb (String.eqb s EmptyString)
  | VArr _ => true
  | VObj _ => true
  end.

(** [v === 'lit'] against a string literal: no coercion. *)
Definition strict_equals_string (v : value) (lit : string) : bool :=
  match v with
  | VStr s => String.eqb s lit
  | _ => false
  end.

(** ** Number to string *)

(** The double nearest to a non-negative integer (ties to even). *)
Definition round53 (m : Z) : Z :=
  let bits := (Z.log2 m + 1)%Z in
  if (bits <=? 53)%Z then m
  else
    let shift := (bits - 53)%Z in
    let q := Z.shiftr m shift in
    let r := Z.land m (Z.ones shift) in
    let half := Z.shiftl 1 (shift - 1) in
    let q' := if (half <? r)%Z || ((r =? half)%Z && Z.odd q)
              then (q + 1)%Z else q in
    Z.shiftl q' shift.

(** The decimal with the fewest significant digits that still rounds to the
    double [x], the nearest to [x] if several do: candidates with [k]
    significant digits are the two multiples of the power of ten around
    [x]. *)
Fixpoint shortest_from (fuel : nat) (k : Z) (digits x : Z) : Z :=
  match fuel with
  | O => x
  | S fuel' =>
      let e := (digits - k)%Z in
      if (e <=? 0)%Z then x
      else
        let p := (10 ^ e)%Z in
        let lo := (x / p * p)%Z in
        let hi := (lo + p)%Z in
        let okl := (round53 lo =? x)%Z in
        let okh := (round53 hi =? x)%Z in
        if okl && okh then
          if (x - lo <? hi - x)%Z then lo
          else if (hi - x <? x - lo)%Z then hi
          else if Z.even (lo / p) then lo else hi
        else if okl then lo
        else if okh then hi
        else shortest_from fuel' (k + 1)%Z digits x
  end.

Definition shortest (x : Z) : Z :=
  shortest_from 17 1 (Z.of_nat (String.length (pretty x))) x.

(** The digits of a decimal without its trailing zeros. *)
Fixpoint strip_zeros_rev (s : string) : string :=
  match s with
  | String c rest => if Ascii.eqb c (Ascii.ascii_of_nat 48) then strip_zeros_rev rest else s
  | EmptyString => EmptyString
  end.

Definition significant (s : string) : string :=
  String.rev (strip_zeros_rev (String.rev s)).

(** Up to 21 digits are printed in full, longer decimals in exponent
    form. *)
Definition format_decimal (v : Z) : string :=
  let all := pretty v in
  let n := Z.of_nat (String.length all) in
  if (n <=? 21)%Z then all
  else
    match significant all with
    | String d EmptyString => String d ("e+" +:+ pretty (n - 1)%Z)
    | String d more => String d ("." +:+ more +:+ "e+" +:+ pretty (n - 1)%Z)
    | EmptyString => all
    end.

(** [Number::toString] on the integer-valued numbers. *)
Definition Number_toString (n : Z) : string :=
  if (n =? 0)%Z then "0"
  else
    let x := round53 (Z.abs n) in
    (if (n <? 0)%Z then "-" else EmptyString)
    +:+ (if (2 ^ 1024 <=? x)%Z then "Infinity" else format_decimal (shortest x)).

(** The [TypeError] thrown on a property read from [undefined] or [null]
    and on a failed conversion (its message text is engine-specific and left
    out). *)
Definition TypeError : value := VObj {[ "name" := VStr "TypeError" ]}.

(** ** Computations: state and exceptions *)

Inductive outcome (A : Type) : Type :=
  | Return (a : A)
  | Throw (e : value).
Arguments Return {A} a.
Arguments Throw {A} e.

(** The conversion a template literal [`${v}`] applies to [v].  On an
    object it asks for [toString], then [valueOf]: an own property
    [toString] hides the inherited method and is not callable, the inherited
    [valueOf] gives the object back, and the conversion throws; without an
    own [toString] the inherited one answers.  An array joins its elements
    with commas, [undefined] and [null] counting as empty. *)
Fixpoint ToString (v : value) : outcome string :=
  match v with
  | VUndefined => Return "undefined"
  | VNull => Return "null"
  | VBool b => Return (if b then "true" else "false")
  | VNum n => Return (Number_toString n)
  | VStr s => Return s
  | VArr l =>
      (fix join (l : list value) : outcome string :=
         match l with
         | [] => Return EmptyString
         | e :: rest =>
             match (match e with
                    | VUndefined | VNull => Return EmptyString
                    | _ => ToString e
                    end) with
             | Throw t => Throw t
             | Return s =>
                 match rest with
                 | [] => Return s
                 | _ :: _ =>
                     match join rest with
                     | Throw t => Throw t
                     | Return r => Return (s +:+ "," +:+ r)
                     end
                 end
             end
         end) l
  | VObj props =>
      match props !! "toString" with
      | Some _ => Throw TypeError
      | None => Return "[object Object]"
      end
  end.

Definition JS (St A : Type) : Type := St -> outcome A * St.

#[export] Instance JS_ret {St} : MRet (JS St) :=
  fun A a s => (Return a, s).

#[export] Instance JS_bind {St} : MBind (JS St) :=
  fun A B k m s =>
    match m s with
    | (Return a, s') => k a s'
    | (Throw e, s') => (Throw e, s')
    end.

Definition throw {St A} (e : value) : JS St A :=
  fun s => (Throw e, s).

(** [try { body } catch (e) { handler e }] *)
Definition try_catch {St A} (body : JS St A) (handler : value -> JS St A)
  : JS St A :=
  fun s =>
    match body s with
    | (Return a, s') => (Return a, s')
    | (Throw e, s') => handler e s'
    end.

Definition modify {St} (f : St -> St) : JS St unit :=
  fun s => (Return tt, f s).

Definition skip {St} : JS St unit := mret tt.

(** A computation that touches no state. *)
Definition pure {St A} (o : outcome A) : JS St A :=
  fun s => (o, s).

(** [`${v}`]: one substitution of a template literal. *)
Definition substitute {St} (v : value) : JS St string :=
  pure (ToString v).

(** [o.key] for an identifier [key]. *)
Definition property {St} (o : value) (key : string) : JS St value :=
  match o with
  | VUndefined | VNull => throw TypeError
  | VObj props => mret (default VUndefined (props !! key))
  | VArr l =>
      mret (if String.eqb key "length" then VNum (Z.of_nat (length l))
            else VUndefined)
  | VStr s =>
      mret (if String.eqb key "length" then VNum (Z.of_nat (String.length s))
            else VUndefined)
  | VBool _ | VNum _ => mret VUndefined
  end.

(** [o[i]] for a numeric literal [i]. *)
Definition index {St} (o : value) (i : nat) : JS St value :=
  match o with
  | VUndefined | VNull => throw TypeError
  | VObj props => mret (default VUndefined (props !! pretty i))
  | VArr l => mret (default VUndefined (l !! i))
  | VStr s =>
      mret (match String.get i s with
            | Some c => VStr (String c EmptyString)
            | None => VUndefined
            end)
  | VBool _ | VNum _ => mret VUndefined
  end.

(** ** Promises *)

Inductive promise : Type :=
  | Pending
  | Fulfilled (v : value)
  | Rejected (reason : value).

(** What the closures of one call capture: the promise under construction,
    and the console they print to. *)
Record cell : Type := Cell {
  state : promise;
  console : list string
}.

(** A promise settles at most once: the first [resolve] or [reject] wins,
    later calls do nothing. *)
Definition settle (p : promise) : JS cell unit :=
  modify (fun c =>
    match state c with
    | Pending => Cell p (console c)
    | _ => c
    end).

(** [resolve(...args)] and [reject(...args)]: both look at their first
    argument only; a missing argument is [undefined]. *)
Definition resolve (args : list value) : JS cell unit :=
  settle (Fulfilled (default VUndefined (args !! 0))).

Definition reject (args : list value) : JS cell unit :=
  settle (Rejected (default VUndefined (args !! 0))).

Definition console_log (line : string) : JS cell unit :=
  modify (fun c => Cell (state c) (console c ++ [line])).

(** ** The scripting bridge *)

Inductive request : Type :=
  | Execute (script : string)
  | ExecuteFile (path : string) (variables : gmap string value).

(** A request handed to the bridge with the callback that awaits its reply
    [(error, output)]. *)
Record submission : Type := Submission {
  command : request;
  callback : value -> value -> JS cell unit
}.

Record world : Type := World {
  closure : cell;
  submitted : list submission;
  uncaught : list value
}.

Definition within {A} (m : JS cell A) : JS world A :=
  fun w =>
    let '(r, c) := m (closure w) in
    (r, World c (submitted w) (uncaught w)).

Definition OSA_execute (script : string)
    (cb : value -> value -> JS cell unit) : JS world unit :=
  modify (fun w =>
    World (closure w) (submitted w ++ [Submission (Execute script) cb])
          (uncaught w)).

Definition OSA_executeFile (path : string) (variables : gmap string value)
    (cb : value -> value -> JS cell unit) : JS world unit :=
  modify (fun w =>
    World (closure w)
          (submitted w ++ [Submission (ExecuteFile path variables) cb])
          (uncaught w)).

(** [new Promise(executor)]: the executor runs at once; an exception that
    escapes it rejects the promise. *)
Definition new_Promise (executor : JS world unit) : world :=
  match executor (World (Cell Pending []) [] []) with
  | (Return _, w) => w
  | (Throw e, w) => snd (within (reject [e]) w)
  end.

(** The bridge completes the request it was handed and runs its callback
    with [(error, output)].  An exception that escapes a callback is an
    uncaught exception of the host; the promise does not see it. *)
Definition answer (error output : value) (w : world) : world :=
  match submitted w with
  | [] => w
  | sub :: _ =>
      match callback sub error output (closure w) with
      | (Return _, c) => World c (submitted w) (uncaught w)
      | (Throw e, c) => World c (submitted w) (uncaught w ++ [e])
      end
  end.

Definition commands (w : world) : list request :=
  map command (submitted w).

Definition settled (w : world) : promise := state (closure w).

(** ** The exported operations *)

Section Dispatcher.

(** [require('macos-version').is('>=10.15')], evaluated once when the
    module loads, and the module's directory. *)
Variable catalina : bool.
Variable __dirname : string.

Definition itom : string := if catalina then "Music" else "iTunes".

Definition tell (rest : string) : string :=
  "tell application " +:+ dq +:+ itom +:+ dq +:+ rest.

(** [() => resolve()] *)
Definition acknowledge : value -> value -> JS cell unit :=
  fun _ _ => resolve [].

(** [error => error ? reject(error.message) : resolve()] *)
Definition message_or_done : value -> value -> JS cell unit :=
  fun error _ =>
    if ToBoolean error
    then message ← property error "message"; reject [message]
    else resolve [].

Definition playPause : world :=
  new_Promise (OSA_execute (tell " to playpause") acknowledge).

Definition gotoPrevious : world :=
  new_Promise (OSA_execute (tell " to previous track") acknowledge).

Definition gotoNext : world :=
  new_Promise (OSA_execute (tell " to next track") acknowledge).

Definition isValidKey (name : value) : bool :=
  strict_equals_string name "name"
  || strict_equals_string name "artist"
  || strict_equals_string name "album".

Definition get_callback : value -> value -> JS cell unit :=
  fun error output => resolve [output; error].

Definition get (name isVerbose : value) : world :=
  new_Promise (
    (if String.eqb (typeof isVerbose) "boolean" && ToBoolean isVerbose
        && isValidKey name
     then
       text ← substitute name;
       within (console_log ("Valid string recieved: " +:+ text))
     else if String.eqb (typeof isVerbose) "boolean" && ToBoolean isVerbose
     then
       text ← substitute name;
       within (console_log ("Invalid string recieved: " +:+ text))
     else skip);;
    if String.eqb (typeof name) "string" && isValidKey name
    then
      text ← substitute name;
      OSA_execute
        (tell (" to get the " +:+ text +:+ " of the current track"))
        get_callback
    else within (reject [VStr ("[" +:+ itom +:+ "] [Error] Invalid input.")])).

Definition getMetadata_callback : value -> value -> JS cell unit :=
  fun err meta =>
    (if ToBoolean err then reject [err] else skip);;
    try_catch
      (if negb (String.eqb (typeof meta) "undefined")
          && negb (String.eqb (typeof meta) "null")
       then
         m0 ← index meta 0;
         m1 ← index meta 1;
         m2 ← index meta 2;
         m3 ← index meta 3;
         m4 ← index meta 4;
         m5 ← index meta 5;
         m6 ← index meta 6;
         m7 ← index meta 7;
         m8 ← index meta 8;
         m9 ← index meta 9;
         m10 ← index meta 10;
         let response :=
           VObj (list_to_map
                   [("name", m0); ("artist", m1); ("album", m2);
                    ("year", m3); ("albumArtist", m4); ("bpm", m5);
                    ("composer", m6); ("genre", m7); ("length", m8);
                    ("progress", m9); ("trackNumber", m10)]) in
         resolve [response]
       else skip)
      (fun _ => reject [VStr "No song is currently playing"]).

Definition getMetadata : world :=
  new_Promise (
    let filename :=
      __dirname +:+ "/applescript/metadata."
      +:+ (if String.eqb itom "Music" then "music." else EmptyString)
      +:+ "applescript" in
    OSA_executeFile filename ∅ getMetadata_callback).

Definition getPlaylistMetadata_callback : value -> value -> JS cell unit :=
  fun error meta =>
    (if ToBoolean error then reject [error] else skip);;
    resolve [meta].

Definition getPlaylistMetadata (name : value) : world :=
  new_Promise (
    let filename :=
      __dirname +:+ "/applescript/metadata.playlist."
      +:+ (if String.eqb itom "Music" then "music." else EmptyString)
      +:+ "applescript" in
    OSA_executeFile filename {[ "playlistName" := name ]}
      getPlaylistMetadata_callback).

Definition getPlayerState_callback : value -> value -> JS cell unit :=
  fun error output =>
    (if ToBoolean error then reject [error] else skip);;
    resolve [VBool (strict_equals_string output "playing")].

Definition getPlayerState : world :=
  new_Promise (
    OSA_execute (tell " to get player state as text")
      getPlayerState_callback).

Definition activate : world :=
  new_Promise (OSA_execute (tell " to activate") message_or_done).

(** The three clause slots of [playSong], each computed from the selector
    fields it reads; the template of a present field converts its value. *)
Definition isNotNull (field : value) : bool :=
  negb (String.eqb (typeof field) "undefined").

Definition responseName {St} (name : value) : JS St string :=
  if isNotNull name
  then text ← substitute name; mret ("name is " +:+ dq +:+ text +:+ dq)
  else mret EmptyString.

Definition responseArtist {St} (name artist : value) : JS St string :=
  if isNotNull artist
  then
    text ← substitute artist;
    mret ((if isNotNull name then " and " else " ")
          +:+ "artist is " +:+ dq +:+ text +:+ dq)
  else mret EmptyString.

Definition responseAlbum {St} (name artist album : value) : JS St string :=
  if isNotNull album
  then
    text ← substitute album;
    mret ((if isNotNull name || isNotNull artist then " and " else " ")
          +:+ "album is " +:+ dq +:+ text +:+ dq)
  else mret EmptyString.

Definition playSong (options : value) : world :=
  new_Promise (
    name ← property options "name";
    artist ← property options "artist";
    album ← property options "album";
    responseName ← responseName name;
    responseArtist ← responseArtist name artist;
    responseAlbum ← responseAlbum name artist album;
    if isNotNull name || isNotNull artist || isNotNull album
    then
      try_catch
        (OSA_execute
           (tell (" to play (first track whose "
                  +:+ responseName +:+ " "
                  +:+ responseArtist +:+ " "
                  +:+ responseAlbum +:+ ")"))
           message_or_done)
        (fun e => within (reject [e]))
    else
      within (reject [VStr ("[" +:+ itom
        +:+ "] [Error] Not enough info in options, requires "
        +:+ dq +:+ "name" +:+ dq +:+ ", "
        +:+ dq +:+ "artist" +:+ dq +:+ ", or "
        +:+ dq +:+ "album" +:+ dq +:+ ".")])).

Definition playPlaylist (name : value) : world :=
  new_Promise (
    text ← substitute name;
    OSA_execute
      (tell (" to play playlist " +:+ dq +:+ text +:+ dq))
      message_or_done).

Definition addToPlaylist (songObject playlist : value) : world :=
  new_Promise (
    name ← property songObject "name";
    name ← substitute name;
    artist ← property songObject "artist";
    artist ← substitute artist;
    album ← property songObject "album";
    album ← substitute album;
    playlist ← substitute playlist;
    OSA_execute
      (tell (" to add (get the location of the first track whose name is "
             +:+ dq +:+ name +:+ dq
             +:+ " and artist is " +:+ dq +:+ artist +:+ dq
             +:+ " and album is " +:+ dq +:+ album +:+ dq
             +:+ ") to playlist " +:+ dq +:+ playlist +:+ dq))
      message_or_done).

(** A call of the public surface, and the promise it leaves once the
    bridge has replied [(error, output)] to whatever it submitted. *)
Inductive call : Type :=
  | CallPlayPause
  | CallGotoPrevious
  | CallGotoNext
  | CallGet (name isVerbose : value)
  | CallGetMetadata
  | CallGetPlaylistMetadata (name : value)
  | CallGetPlayerState
  | CallActivate
  | CallPlaySong (options : value)
  | CallPlayPlaylist (name : value)
  | CallAddToPlaylist (songObject playlist : value).

Definition invoke (c : call) : world :=
  match c with
  | CallPlayPause => playPause
  | CallGotoPrevious => gotoPrevious
  | CallGotoNext => gotoNext
  | CallGet name isVerbose => get name isVerbose
  | CallGetMetadata => getMetadata
  | CallGetPlaylistMetadata name => getPlaylistMetadata name
  | CallGetPlayerState => getPlayerState
  | CallActivate => activate
  | CallPlaySong options => playSong options
  | CallPlayPlaylist name => playPlaylist name
  | CallAddToPlaylist songObject playlist => addToPlaylist songObject playlist
  end.

Definition outcome_of (c : call) (error output : value) : promise :=
  settled (answer error output (invoke c)).

End Dispatcher.

(** ** Error messages and selectors *)

Definition InvalidInputError (catalina : bool) : value :=
  VStr ("[" +:+ itom catalina +:+ "] [Error] Invalid input.").

Definition InsufficientSelectorError (catalina : bool) : value :=
  VStr ("[" +:+ itom catalina
        +:+ "] [Error] Not enough info in options, requires "
        +:+ dq +:+ "name" +:+ dq +:+ ", "
        +:+ dq +:+ "artist" +:+ dq +:+ ", or "
        +:+ dq +:+ "album" +:+ dq +:+ ".").

Definition NoActiveTrackError : value := VStr "No song is currently playing".

(** The object literal [{name: .., artist: .., album: ..}] with the fields
    that are given. *)
Definition selector (name artist album : option value) : value :=
  VObj (list_to_map
          (omap (fun '(k, v) => pair k <$> v)
                [("name", name); ("artist", artist); ("album", album)])).

(** [o.key] on an object's property table. *)
Definition field (props : gmap string value) (key : string) : value :=
  default VUndefined (props !! key).

(** The record [getMetadata] builds from a reply that can be indexed:
    slot [i] of the reply, [undefined] where the reply has none. *)
Definition slot (meta : value) (i : nat) : value :=
  match index meta i tt with
  | (Return v, _) => v
  | (Throw _, _) => VUndefined
  end.

Definition metadata_record (meta : value) : value :=
  VObj (list_to_map
          [("name", slot meta 0); ("artist", slot meta 1);
           ("album", slot meta 2); ("year", slot meta 3);
           ("albumArtist", slot meta 4); ("bpm", slot meta 5);
           ("composer", slot meta 6); ("genre", slot meta 7);
           ("length", slot meta 8); ("progress", slot meta 9);
           ("trackNumber", slot meta 10)]).

(** ** The filter predicate, as the specification words it *)

(** One clause [<field> is "<value>"]. *)
Definition clause (name text : string) : string :=
  name +:+ " is " +:+ dq +:+ text +:+ dq.

(** How a selector field shows in the predicate: [None] for a field that is
    [undefined], the text its value converts to otherwise. *)
Definition renders (v : value) (text : option string) : Prop :=
  match text with
  | None => v = VUndefined
  | Some s => v <> VUndefined /\ ToString v = Return s
  end.

Definition present_clauses (name artist album : option string)
  : list string :=
  (if name is Some text then [clause "name" text] else [])
  ++ (if artist is Some text then [clause "artist" text] else [])
  ++ (if album is Some text then [clause "album" text] else []).

(** The clauses of the present fields, in the order name, artist, album,
    joined with [" and "]. *)
Definition spec_predicate (name artist album : option string) : string :=
  String.concat " and " (present_clauses name artist album).

(** The same clauses with the spaces that the absent fields leave behind,
    case by case. *)
Definition spaced_predicate (name artist album : option string) : string :=
  match name, artist, album with
  | Some n, None, None => clause "name" n +:+ "  "
  | None, Some a, None => "  " +:+ clause "artist" a +:+ " "
  | None, None, Some l => "   " +:+ clause "album" l
  | Some n, Some a, None =>
      clause "name" n +:+ "  and " +:+ clause "artist" a +:+ " "
  | Some n, None, Some l =>
      clause "name" n +:+ "   and " +:+ clause "album" l
  | None, Some a, Some l =>
      "  " +:+ clause "artist" a +:+ "  and " +:+ clause "album" l
  | Some n, Some a, Some l =>
      clause "name" n +:+ "  and " +:+ clause "artist" a
      +:+ "  and " +:+ clause "album" l
  | None, None, None => "  "
  end.

(** The script [playSong] submits, around its filter predicate. *)
Definition play_script (catalina : bool) (predicate : string) : string :=
  tell catalina (" to play (first track whose " +:+ predicate +:+ ")").

Definition is_space (c : Ascii.ascii) : bool :=
  Ascii.eqb c (Ascii.ascii_of_nat 32).

(** A string with its space characters dropped. *)
Fixpoint despace (s : string) : string :=
  match s with
  | EmptyString => EmptyString
  | String c rest =>
      if is_space c then despace rest else String c (despace rest)
  end.

(** ** Quoted literals of the script language *)

Definition is_quote (c : Ascii.ascii) : bool :=
  Ascii.eqb c (Ascii.ascii_of_nat 34).

Definition is_backslash (c : Ascii.ascii) : bool :=
  Ascii.eqb c (Ascii.ascii_of_nat 92).

Fixpoint has_quote (s : string) : bool :=
  match s with
  | EmptyString => false
  | String c rest => is_quote c || has_quote rest
  end.

(** The character an escape sequence stands for: backslash-n, -r and -t are
    line feed, carriage return and tab, any other character is itself. *)
Definition unescape (c : Ascii.ascii) : Ascii.ascii :=
  if Ascii.eqb c (Ascii.ascii_of_nat 110) then Ascii.ascii_of_nat 10
  else if Ascii.eqb c (Ascii.ascii_of_nat 114) then Ascii.ascii_of_nat 13
  else if Ascii.eqb c (Ascii.ascii_of_nat 116) then Ascii.ascii_of_nat 9
  else c.

(** The body of a string literal, read from just after its opening quote up
    to the first quote that is not escaped, and the text left after the
    closing quote. *)
Fixpoint literal_body (s : string) : option (string * string) :=
  match s with
  | EmptyString => None
  | String c rest =>
      if is_quote c then Some (EmptyString, rest)
      else if is_backslash c then
        match rest with
        | EmptyString => None
        | String d rest' =>
            prod_map (String (unescape d)) id <$> literal_body rest'
        end
      else prod_map (String c) id <$> literal_body rest
  end.

(** The string literal a text starts with. *)
Definition read_literal (s : string) : option (string * string) :=
  match s with
  | EmptyString => None
  | String c rest => if is_quote c then literal_body rest else None
  end.

(** The text that follows a given prefix. *)
Fixpoint strip_prefix (prefix s : string) : option string :=
  match prefix, s with
  | EmptyString, _ => Some s
  | String a prefix', String b s' =>
      if Ascii.eqb a b then strip_prefix prefix' s' else None
  | String _ _, EmptyString => None
  end.

(** The literal found in a script right after [prefix]. *)
Definition literal_after (prefix script : string) : option string :=
  rest ← strip_prefix prefix script;
  fst <$> read_literal rest.

(** The literal a call's submitted script holds right after [prefix]. *)
Definition literal_at (w : world) (prefix : string) : option string :=
  match commands w with
  | [Execute script] => literal_after prefix script
  | _ => None
  end.

Fixpoint has_backslash (s : string) : bool :=
  match s with
  | EmptyString => false
  | String c rest => is_backslash c || has_backslash rest
  end.

(** The object literal of a track: name, artist and album. *)
Definition track (name artist album : value) : value :=
  selector (Some name) (Some artist) (Some album).

(** ** Reading replies and arguments without effects *)

(** The value of [o.key] where the read does not throw. *)
Definition read (o : value) (key : string) : value :=
  match property o key tt with
  | (Return v, _) => v
  | (Throw _, _) => VUndefined
  end.

(** [undefined] and [null]: the values a property read throws on. *)
Definition nullish (v : value) : bool :=
  match v with
  | VUndefined | VNull => true
  | _ => false
  end.

(** The number of values nested in a value, itself included. *)
Fixpoint nesting (v : value) : nat :=
  match v with
  | VArr l =>
      S ((fix total (l : list value) : nat :=
            match l with
            | [] => 0
            | x :: rest => nesting x + total rest
            end) l)
  | _ => 1
  end.

(** A value whose conversion to a string returns. *)
Definition converts (v : value) : Prop :=
  exists text, ToString v = Return text.

(** A value whose conversion to a string throws. *)
Definition cannot_convert (v : value) : Prop :=
  ToString v = Throw TypeError.

(** What [error => error ? reject(error.message) : resolve()] makes of a
    pending promise. *)
Definition message_verdict (error : value) : promise :=
  if ToBoolean error then Rejected (read error "message")
  else Fulfilled VUndefined.

(** A callback that returns normally and prints nothing. *)
Definition quiet (cb : value -> value -> JS cell unit) : Prop :=
  forall error output c,
    fst (cb error output c) = Return tt
    /\ console (snd (cb error output c)) = console c.

(** The opening of every inline script: the application addressed. *)
Definition tell_target (catalina : bool) : string :=
  "tell application " +:+ dq +:+ (if catalina then "Music" else "iTunes")
  +:+ dq +:+ " to ".

(** ** Basic facts *)

(** Once settled, a promise keeps its state whatever is called on it. *)
Lemma settle_keeps p c :
  state c <> Pending -> snd (settle p c) = c.
Proof. destruct c as [[| v | e] out]; simpl; congruence. Qed.

Lemma isValidKey_spec name :
  isValidKey name = true <->
  name = VStr "name" \/ name = VStr "artist" \/ name = VStr "album".
Proof.
  unfold isValidKey, strict_equals_string.
  destruct name as [| | b | n | s | l | props]; simpl;
    try (split; [discriminate | intros [H | [H | H]]; discriminate]).
  rewrite !orb_true_iff, !String.eqb_eq.
  split.
  - intros [[H | H] | H]; subst; auto.
  - intros [H | [H | H]]; injection H as ->; auto.
Qed.

Lemma typeof_string name :
  isValidKey name = true -> String.eqb (typeof name) "string" = true.
Proof.
  intros H. apply isValidKey_spec in H.
  destruct H as [-> | [-> | ->]]; reflexivity.
Qed.

Lemma isValidKey_text name :
  isValidKey name = true -> exists text, name = VStr text.
Proof.
  intros H. apply isValidKey_spec in H.
  destruct H as [-> | [-> | ->]]; eexists; reflexivity.
Qed.

(** Integers up to 2^53 print all their digits; beyond, a number prints the
    shortest decimal that identifies its double, in exponent form from 21
    digits on. *)
Example Number_toString_examples :
  Number_toString 0 = "0"
  /\ Number_toString (-1959) = "-1959"
  /\ Number_toString (2 ^ 53) = "9007199254740992"
  /\ Number_toString (2 ^ 53 + 1) = "9007199254740992"
  /\ Number_toString (2 ^ 64) = "18446744073709552000"
  /\ Number_toString (10 ^ 21 - 1) = "1e+21"
  /\ Number_toString (10 ^ 21) = "1e+21"
  /\ Number_toString (10 ^ 23) = "1e+23"
  /\ Number_toString (2 ^ 70) = "1.1805916207174113e+21"
  /\ Number_toString (- 2 ^ 100) = "-1.2676506002282294e+30"
  /\ Number_toString (2 ^ 1024) = "Infinity".
Proof. vm_compute. repeat split. Qed.

(** An object with a [toString] property of its own cannot be converted,
    alone or inside an array; without one it converts. *)
Example ToString_examples :
  ToString (VObj {[ "toString" := VNum 1 ]}) = Throw TypeError
  /\ ToString (VArr [VStr "a"; VObj {[ "toString" := VNum 1 ]}])
     = Throw TypeError
  /\ ToString (VObj {[ "valueOf" := VNum 1 ]}) = Return "[object Object]"
  /\ ToString (VArr [VNum 1; VNull; VArr [VStr "a"; VUndefined]; VBool true])
     = Return "1,,a,,true".
Proof. vm_compute. repeat split. Qed.

(** An array is converted element by element, from the left. *)
Lemma ToString_cons x l :
  ToString (VArr (x :: l))
  = match (match x with
           | VUndefined | VNull => Return EmptyString
           | _ => ToString x
           end) with
    | Throw t => Throw t
    | Return s =>
        if bool_decide (l = []) then Return s
        else match ToString (VArr l) with
             | Throw t => Throw t
             | Return r => Return (s +:+ "," +:+ r)
             end
    end.
Proof. destruct l; reflexivity. Qed.

Lemma nesting_cons x l : nesting (VArr (x :: l)) = nesting x + nesting (VArr l).
Proof. cbn [nesting]. lia. Qed.

Lemma ToString_throws_below n :
  forall v e, nesting v < n -> ToString v = Throw e -> e = TypeError.
Proof.
  induction n as [| n IH]; [intros v e Hn; lia |].
  intros [| | b | k | s | l | props] e Hn; try discriminate.
  - destruct l as [| x l]; [discriminate |].
    rewrite nesting_cons in Hn. rewrite ToString_cons.
    assert (Hl : 0 < nesting (VArr l)) by (cbn [nesting]; lia).
    assert (Hx : 0 < nesting x) by (destruct x; cbn [nesting]; lia).
    destruct (match x with
              | VUndefined | VNull => Return EmptyString
              | _ => ToString x
              end) as [s | t] eqn:Ex.
    + destruct (bool_decide (l = [])); [discriminate |].
      destruct (ToString (VArr l)) as [r | t] eqn:Ej; [discriminate |].
      intros [= <-]. apply (IH (VArr l) t); [lia | exact Ej].
    + intros [= <-].
      destruct x; try discriminate Ex; (eapply IH; [| exact Ex]; lia).
  - cbn [ToString]. destruct (props !! "toString"); [| discriminate].
    now intros [= <-].
Qed.

(** The conversion of a template throws nothing but a [TypeError]. *)
Lemma ToString_throws v e : ToString v = Throw e -> e = TypeError.
Proof. apply (ToString_throws_below (S (nesting v))). lia. Qed.

Lemma converts_or_throws v : converts v \/ ToString v = Throw TypeError.
Proof.
  destruct (ToString v) as [text | e] eqn:E.
  - left. exists text. exact E.
  - right. now rewrite (ToString_throws _ _ E).
Qed.

Section Get.
Variable catalina : bool.

(** The executor of [get], evaluated: what is printed depends on
    [isVerbose], what is submitted on [isValidKey] alone. *)
Lemma get_valid (text : string) isVerbose :
  isValidKey (VStr text) = true ->
  settled (get catalina (VStr text) isVerbose) = Pending /\
  submitted (get catalina (VStr text) isVerbose) =
    [Submission
       (Execute (tell catalina
          (" to get the " +:+ text +:+ " of the current track")))
       get_callback].
Proof.
  intros Hk.
  unfold get, new_Promise, settled, mbind, JS_bind. rewrite Hk.
  destruct isVerbose as [| | [|] | | | |]; simpl; auto.
Qed.

(** An invalid field name whose line for the console can be built, or need
    not be. *)
Lemma get_invalid name isVerbose :
  isValidKey name = false ->
  (isVerbose = VBool true -> converts name) ->
  settled (get catalina name isVerbose) = Rejected (InvalidInputError catalina)
  /\ submitted (get catalina name isVerbose) = [].
Proof.
  intros Hk Hc.
  unfold get, new_Promise, settled, mbind, JS_bind. rewrite Hk.
  rewrite !andb_false_r.
  destruct isVerbose as [| | [|] | | | |]; simpl; auto.
  destruct (Hc eq_refl) as [text Ht].
  unfold substitute, pure. rewrite Ht. simpl. auto.
Qed.

(** With the verbose flag, an invalid field name that cannot be converted
    makes the template of the console line throw: the promise is rejected
    with that exception, nothing is printed or submitted. *)
Lemma get_invalid_throws name e :
  isValidKey name = false ->
  ToString name = Throw e ->
  settled (get catalina name (VBool true)) = Rejected e
  /\ submitted (get catalina name (VBool true)) = []
  /\ console (closure (get catalina name (VBool true))) = []
  /\ uncaught (get catalina name (VBool true)) = [].
Proof.
  intros Hk Ht.
  unfold get, new_Promise, settled, mbind, JS_bind. rewrite Hk.
  simpl. unfold substitute, pure. rewrite Ht. simpl. auto.
Qed.
End Get.

(** The calls on which a template throws: the promise is rejected with the
    [TypeError] and the bridge is not contacted. *)
Example conversion_failures :
  let odd := VObj {[ "toString" := VNum 1 ]} in
  (settled (get true odd (VBool true)) = Rejected TypeError
   /\ commands (get true odd (VBool true)) = []
   /\ console (closure (get true odd (VBool true))) = [])
  /\ settled (get true odd VUndefined) = Rejected (InvalidInputError true)
  /\ (settled (playPlaylist true odd) = Rejected TypeError
      /\ commands (playPlaylist true odd) = [])
  /\ (settled (playSong true (selector (Some odd) None None))
      = Rejected TypeError
      /\ commands (playSong true (selector (Some odd) None None)) = [])
  /\ (settled (addToPlaylist true (VObj ∅) odd) = Rejected TypeError
      /\ commands (addToPlaylist true (VObj ∅) odd) = []).
Proof. vm_compute. repeat split. Qed.

(** ** [get]: validation of the field name *)

Lemma isValidKey_false name :
  isValidKey name = false <->
  name <> VStr "name" /\ name <> VStr "artist" /\ name <> VStr "album".
Proof.
  rewrite <- not_true_iff_false, isValidKey_spec. tauto.
Qed.

(** C5: for every field name outside {name, artist, album}, a string or
    not, [get] rejects with the invalid-input message, and nothing has been
    handed to the bridge: the rejection is there when [get] returns and no
    reply can change it.  This holds for every call without the verbose
    flag; with the flag [true] the line for the console is built first, so
    the field name must convert to a string (an object with a [toString]
    property of its own does not). *)
Theorem get_rejects_unrecognized_field catalina name isVerbose :
  name <> VStr "name" -> name <> VStr "artist" -> name <> VStr "album" ->
  (isVerbose = VBool true -> converts name) ->
  settled (get catalina name isVerbose) = Rejected (InvalidInputError catalina)
  /\ commands (get catalina name isVerbose) = []
  /\ forall error output,
       settled (answer error output (get catalina name isVerbose))
       = Rejected (InvalidInputError catalina).
Proof.
  intros H1 H2 H3 Hc.
  destruct (get_invalid catalina name isVerbose) as [Hs Hq].
  { apply isValidKey_false. auto. }
  { exact Hc. }
  split; [exact Hs |]. split.
  - unfold commands. rewrite Hq. reflexivity.
  - intros error output. unfold answer. rewrite Hq. exact Hs.
Qed.

Lemma get_rejects_unrecognized_field_witness :
  settled (get false (VNum 7) (VBool true))
    = Rejected (VStr "[iTunes] [Error] Invalid input.")
  /\ commands (get false (VNum 7) (VBool true)) = []
  /\ forall error output,
       settled (answer error output (get false (VNum 7) (VBool true)))
       = Rejected (VStr "[iTunes] [Error] Invalid input.").
Proof.
  apply (get_rejects_unrecognized_field false (VNum 7) (VBool true));
    try discriminate.
  intros _. exists "7". reflexivity.
Defined.

(** C6, as amended: [get] rejects exactly when the field is not one of the
    three strings name, artist, album.  The test is on the value, not on its
    type alone, so a string outside the set is rejected like any other
    value, with the invalid-input message, and is not submitted. *)
Theorem get_rejects_iff_unrecognized catalina name isVerbose :
  (((exists reason, settled (get catalina name isVerbose) = Rejected reason)
    /\ commands (get catalina name isVerbose) = [])
   <->
   (name <> VStr "name" /\ name <> VStr "artist" /\ name <> VStr "album"))
  /\ forall text : string,
       name = VStr text ->
       text <> "name" -> text <> "artist" -> text <> "album" ->
       settled (get catalina name isVerbose)
       = Rejected (InvalidInputError catalina)
       /\ commands (get catalina name isVerbose) = [].
Proof.
  split.
  - rewrite <- isValidKey_false.
    destruct (isValidKey name) eqn:Hk.
    + destruct (isValidKey_text name Hk) as [text ->].
      destruct (get_valid catalina text isVerbose Hk) as [Hs Hq].
      split; [| discriminate].
      intros [[reason Hr] _]. rewrite Hs in Hr. discriminate.
    + split; [reflexivity |]. intros _.
      destruct (converts_or_throws name) as [Hc | Ht].
      * destruct (get_invalid catalina name isVerbose Hk (fun _ => Hc))
          as [Hs Hq].
        split; [eexists; exact Hs |]. unfold commands. now rewrite Hq.
      * assert (Hv : isVerbose = VBool true \/ isVerbose <> VBool true).
        { destruct isVerbose as [| | [|] | | | |];
            first [left; reflexivity | right; discriminate]. }
        destruct Hv as [-> | Hv].
        -- destruct (get_invalid_throws catalina name _ Hk Ht)
             as (Hs & Hq & _).
           split; [eexists; exact Hs |]. unfold commands. now rewrite Hq.
        -- destruct (get_invalid catalina name isVerbose Hk) as [Hs Hq].
           { intros E. contradiction. }
           split; [eexists; exact Hs |]. unfold commands. now rewrite Hq.
  - intros text -> H1 H2 H3.
    destruct (get_invalid catalina (VStr text) isVerbose) as [Hs Hq].
    { apply isValidKey_false. repeat split; congruence. }
    { intros _. exists text. reflexivity. }
    split; [exact Hs |]. unfold commands. now rewrite Hq.
Qed.

Lemma get_rejects_iff_unrecognized_witness :
  settled (get true (VStr "genre") (VBool true))
  = Rejected (InvalidInputError true)
  /\ commands (get true (VStr "genre") (VBool true)) = [].
Proof.
  apply (proj2 (get_rejects_iff_unrecognized true (VStr "genre") (VBool true))
           "genre" eq_refl); discriminate.
Defined.

(** C6, the claim as stated fails: the string "genre" is outside the set,
    and [get] rejects it without submitting anything. *)
Lemma get_genre_not_submitted :
  typeof (VStr "genre") = "string"
  /\ commands (get true (VStr "genre") VUndefined) = []
  /\ settled (get true (VStr "genre") VUndefined)
     = Rejected (VStr "[Music] [Error] Invalid input.").
Proof. repeat split. Qed.

(** C9: for a valid field name [get] resolves with the bridge's output,
    whatever error the bridge reports: the callback passes the error as a
    second argument to [resolve], which does not look at it. *)
Theorem get_ignores_bridge_error catalina name isVerbose error output :
  name = VStr "name" \/ name = VStr "artist" \/ name = VStr "album" ->
  exists text,
    name = VStr text
    /\ commands (get catalina name isVerbose)
       = [Execute (tell catalina
            (" to get the " +:+ text +:+ " of the current track"))]
    /\ settled (answer error output (get catalina name isVerbose))
       = Fulfilled output.
Proof.
  intros Hk. apply isValidKey_spec in Hk.
  destruct (isValidKey_text name Hk) as [text ->]. exists text.
  destruct (get_valid catalina text isVerbose Hk) as [Hs Hq].
  split; [reflexivity |]. split.
  - unfold commands. rewrite Hq. reflexivity.
  - unfold answer, settled in *. rewrite Hq. simpl.
    destruct (closure (get catalina (VStr text) isVerbose)) as [st out].
    simpl in Hs. subst st. reflexivity.
Qed.

Lemma get_ignores_bridge_error_witness :
  commands (get true (VStr "artist") VUndefined)
    = [Execute (tell true " to get the artist of the current track")]
  /\ settled (answer (VObj {[ "message" := VStr "execution error" ]})
                     VUndefined (get true (VStr "artist") VUndefined))
     = Fulfilled VUndefined.
Proof.
  destruct (get_ignores_bridge_error true (VStr "artist") VUndefined
              (VObj {[ "message" := VStr "execution error" ]}) VUndefined)
    as (text & Htext & Hc & Hs).
  { right. left. reflexivity. }
  injection Htext as <-. split; [exact Hc | exact Hs].
Defined.

(** ** [getMetadata]: shaping the reply *)

Section Metadata.
Variable catalina : bool.
Variable __dirname : string.

Lemma getMetadata_submits :
  settled (getMetadata catalina __dirname) = Pending
  /\ exists path,
       submitted (getMetadata catalina __dirname)
       = [Submission (ExecuteFile path ∅) getMetadata_callback].
Proof. split; [reflexivity |]. eexists. reflexivity. Qed.

(** The promise after the bridge's reply is what the callback makes of a
    pending promise. *)
Lemma getMetadata_answer error meta :
  settled (answer error meta (getMetadata catalina __dirname))
  = state (snd (getMetadata_callback error meta (Cell Pending []))).
Proof.
  unfold answer, settled, getMetadata, new_Promise. simpl.
  destruct (getMetadata_callback error meta (Cell Pending [])) as [[u | e] c];
    reflexivity.
Qed.

(** A reply that is neither [undefined] nor [null], without an error:
    the record of its slots. *)
Lemma getMetadata_indexable error meta :
  ToBoolean error = false -> meta <> VUndefined -> meta <> VNull ->
  settled (answer error meta (getMetadata catalina __dirname))
  = Fulfilled (metadata_record meta).
Proof.
  intros He Hu Hn. rewrite getMetadata_answer.
  unfold getMetadata_callback, mbind, JS_bind. rewrite He.
  destruct meta; try congruence; reflexivity.
Qed.

Lemma getMetadata_null error :
  ToBoolean error = false ->
  settled (answer error VNull (getMetadata catalina __dirname))
  = Rejected NoActiveTrackError.
Proof.
  intros He. rewrite getMetadata_answer.
  unfold getMetadata_callback, mbind, JS_bind. rewrite He. reflexivity.
Qed.

Lemma getMetadata_undefined error :
  ToBoolean error = false ->
  settled (answer error VUndefined (getMetadata catalina __dirname))
  = Pending.
Proof.
  intros He. rewrite getMetadata_answer.
  unfold getMetadata_callback, mbind, JS_bind. rewrite He. reflexivity.
Qed.

(** With an error the promise is rejected with it, first; what the
    callback does next cannot change that. *)
Lemma getMetadata_error error meta :
  ToBoolean error = true ->
  settled (answer error meta (getMetadata catalina __dirname))
  = Rejected error.
Proof.
  intros He. rewrite getMetadata_answer.
  unfold getMetadata_callback, mbind, JS_bind. rewrite He.
  destruct meta; reflexivity.
Qed.
End Metadata.

(** C7: a reply of exactly eleven values, reported without an error,
    resolves the promise with a record of exactly the eleven fields, each
    holding the reply's value at its position, untouched. *)
Theorem getMetadata_maps_eleven_slots
    catalina __dirname error (reply : list value) :
  ToBoolean error = false ->
  length reply = 11 ->
  exists m : gmap string value,
    settled (answer error (VArr reply) (getMetadata catalina __dirname))
    = Fulfilled (VObj m)
    /\ m !! "name" = reply !! 0
    /\ m !! "artist" = reply !! 1
    /\ m !! "album" = reply !! 2
    /\ m !! "year" = reply !! 3
    /\ m !! "albumArtist" = reply !! 4
    /\ m !! "bpm" = reply !! 5
    /\ m !! "composer" = reply !! 6
    /\ m !! "genre" = reply !! 7
    /\ m !! "length" = reply !! 8
    /\ m !! "progress" = reply !! 9
    /\ m !! "trackNumber" = reply !! 10
    /\ size m = 11.
Proof.
  intros He Hlen.
  do 12 (destruct reply as [| ? reply]; try discriminate Hlen).
  eexists. split.
  - apply getMetadata_indexable; [exact He | discriminate | discriminate].
  - repeat split; vm_compute; reflexivity.
Qed.

Lemma getMetadata_maps_eleven_slots_witness :
  exists m : gmap string value,
    settled (answer VNull
               (VArr [VStr "So What"; VStr "Miles Davis"; VStr "Kind of Blue";
                      VNum 1959; VStr "Miles Davis"; VNum 0; VStr "Miles Davis";
                      VStr "Jazz"; VNum 562; VNum 31; VNum 1])
               (getMetadata true "/srv/lib"))
    = Fulfilled (VObj m)
    /\ m !! "name" = Some (VStr "So What")
    /\ m !! "year" = Some (VNum 1959)
    /\ m !! "trackNumber" = Some (VNum 1)
    /\ size m = 11.
Proof.
  destruct (getMetadata_maps_eleven_slots true "/srv/lib" VNull
              [VStr "So What"; VStr "Miles Davis"; VStr "Kind of Blue";
               VNum 1959; VStr "Miles Davis"; VNum 0; VStr "Miles Davis";
               VStr "Jazz"; VNum 562; VNum 31; VNum 1]
              eq_refl eq_refl)
    as (m & Hm & Hname & _ & _ & Hyear & _ & _ & _ & _ & _ & _ & Htrack & Hsize).
  exists m. auto.
Defined.

(** C4, as amended: among the replies reported without an error, only
    [null] is turned into the no-active-track rejection.  A reply of any
    other shape that is not [undefined] (a shorter or longer sequence, a
    scalar, an object) resolves, with the record of its slots 0 to 10 and
    [undefined] where the reply has no such slot.  A reply reported with an
    error is rejected with that error. *)
Theorem getMetadata_shape_mismatch catalina __dirname error meta :
  (ToBoolean error = false -> meta <> VUndefined ->
   settled (answer error meta (getMetadata catalina __dirname))
   = match meta with
     | VNull => Rejected NoActiveTrackError
     | _ => Fulfilled (metadata_record meta)
     end)
  /\ (ToBoolean error = true ->
      settled (answer error meta (getMetadata catalina __dirname))
      = Rejected error).
Proof.
  split.
  - intros He Hu.
    destruct meta; try congruence;
      first [ apply getMetadata_null; exact He
            | apply getMetadata_indexable; [exact He | discriminate ..] ].
  - intros He. apply getMetadata_error. exact He.
Qed.

Lemma getMetadata_shape_mismatch_witness :
  settled (answer VNull VNull (getMetadata true "/srv/lib"))
    = Rejected NoActiveTrackError
  /\ settled (answer VNull (VStr "ab") (getMetadata true "/srv/lib"))
     = Fulfilled (metadata_record (VStr "ab"))
  /\ settled (answer (VStr "execution error") (VArr [])
                (getMetadata true "/srv/lib"))
     = Rejected (VStr "execution error").
Proof.
  split; [| split].
  - apply (getMetadata_shape_mismatch true "/srv/lib" VNull VNull);
      [reflexivity | discriminate].
  - apply (getMetadata_shape_mismatch true "/srv/lib" VNull (VStr "ab"));
      [reflexivity | discriminate].
  - apply (getMetadata_shape_mismatch true "/srv/lib"
             (VStr "execution error") (VArr [])).
    reflexivity.
Defined.

(** C4, the claim as stated fails: a sequence of two values mismatches the
    eleven-slot schema, and the promise resolves. *)
Lemma getMetadata_short_reply_resolves :
  settled (answer VNull (VArr [VStr "So What"; VStr "Miles Davis"])
             (getMetadata true "/srv/lib"))
  = Fulfilled (VObj (list_to_map
      [("name", VStr "So What"); ("artist", VStr "Miles Davis");
       ("album", VUndefined); ("year", VUndefined);
       ("albumArtist", VUndefined); ("bpm", VUndefined);
       ("composer", VUndefined); ("genre", VUndefined);
       ("length", VUndefined); ("progress", VUndefined);
       ("trackNumber", VUndefined)]))
  /\ settled (answer VNull (VArr [VStr "So What"; VStr "Miles Davis"])
                (getMetadata true "/srv/lib"))
     <> Rejected NoActiveTrackError.
Proof. split; [reflexivity | discriminate]. Qed.

(** C2, on the code: a reply of [undefined] that carries no error leaves
    the promise pending (the guard skips the indexing that would throw, and
    has no else branch), and an empty sequence resolves it; neither
    rejects. *)
Theorem getMetadata_no_data_does_not_reject catalina __dirname :
  settled (answer VNull VUndefined (getMetadata catalina __dirname)) = Pending
  /\ settled (answer VUndefined VUndefined (getMetadata catalina __dirname))
     = Pending
  /\ settled (answer VNull (VArr []) (getMetadata catalina __dirname))
     = Fulfilled (metadata_record (VArr [])).
Proof.
  split; [| split].
  - apply getMetadata_undefined. reflexivity.
  - apply getMetadata_undefined. reflexivity.
  - apply getMetadata_indexable; [reflexivity | discriminate ..].
Qed.

(** ** Strings *)

#[local] Arguments String.append !s1 s2 /.

Lemma append_assoc (a b c : string) : (a +:+ b) +:+ c = a +:+ b +:+ c.
Proof. induction a as [| x a IH]; simpl; [reflexivity | now rewrite IH]. Qed.

Lemma append_empty_r (a : string) : a +:+ EmptyString = a.
Proof. induction a as [| x a IH]; simpl; [reflexivity | now rewrite IH]. Qed.

Lemma despace_app (a b : string) :
  despace (a +:+ b) = despace a +:+ despace b.
Proof.
  induction a as [| x a IH]; simpl; [reflexivity |].
  destruct (is_space x); simpl; now rewrite IH.
Qed.

(** ** [playSong]: the filter predicate *)

Lemma isNotNull_iff v : isNotNull v = true <-> v <> VUndefined.
Proof.
  destruct v; cbv [isNotNull typeof]; simpl;
    (split; [intros H; try discriminate | intros H; try reflexivity]).
  exfalso. apply H. reflexivity.
Qed.

Lemma renders_present v text :
  renders v text -> isNotNull v = if text is Some _ then true else false.
Proof.
  destruct text as [s |]; simpl.
  - intros [Hv _]. now apply isNotNull_iff.
  - now intros ->.
Qed.

Section PlaySong.
Variable catalina : bool.

Lemma playSong_nullish options :
  options = VUndefined \/ options = VNull ->
  settled (playSong catalina options) = Rejected TypeError
  /\ submitted (playSong catalina options) = [].
Proof. intros [-> | ->]; split; reflexivity. Qed.

(** A selector with a field present, whose present values convert: one
    script is submitted, the promise waits for the bridge. *)
Lemma playSong_submits props name artist album :
  renders (field props "name") name ->
  renders (field props "artist") artist ->
  renders (field props "album") album ->
  is_Some name \/ is_Some artist \/ is_Some album ->
  settled (playSong catalina (VObj props)) = Pending
  /\ submitted (playSong catalina (VObj props))
     = [Submission
          (Execute (play_script catalina
                      (spaced_predicate name artist album)))
          message_or_done].
Proof.
  intros Hn Ha Hl Hsome.
  pose proof (renders_present _ _ Hn) as Pn.
  pose proof (renders_present _ _ Ha) as Pa.
  pose proof (renders_present _ _ Hl) as Pl.
  unfold playSong, new_Promise, settled, property, responseName,
    responseArtist, responseAlbum, substitute, pure, mbind, JS_bind,
    mret, JS_ret.
  fold (field props "name"). fold (field props "artist").
  fold (field props "album"). rewrite Pn, Pa, Pl.
  destruct name as [n |], artist as [a |], album as [l |];
    cbn [renders] in Hn, Ha, Hl;
    repeat match goal with
           | H : _ /\ ToString _ = Return _ |- _ =>
               destruct H as [_ H]; rewrite H
           end.
  8: { destruct Hsome as [[? [=]] | [[? [=]] | [? [=]]]]. }
  all: split; [reflexivity |].
  all: unfold try_catch, OSA_execute, modify, play_script, spaced_predicate,
         clause; cbn [submitted app orb]; rewrite ?append_assoc; reflexivity.
Qed.

Lemma playSong_insufficient props :
  isNotNull (field props "name") || isNotNull (field props "artist")
    || isNotNull (field props "album") = false ->
  settled (playSong catalina (VObj props))
    = Rejected (InsufficientSelectorError catalina)
  /\ submitted (playSong catalina (VObj props)) = [].
Proof.
  intros H. apply orb_false_iff in H as [H Hl].
  apply orb_false_iff in H as [Hn Ha].
  unfold playSong, new_Promise, settled, property, responseName,
    responseArtist, responseAlbum, mbind, JS_bind, mret, JS_ret, field in *.
  rewrite Hn, Ha, Hl. split; reflexivity.
Qed.

(** A present field that cannot be converted: the template of its clause
    throws before anything is submitted. *)
Lemma playSong_throws props :
  (field props "name" <> VUndefined
   /\ ToString (field props "name") = Throw TypeError)
  \/ (field props "artist" <> VUndefined
      /\ ToString (field props "artist") = Throw TypeError)
  \/ (field props "album" <> VUndefined
      /\ ToString (field props "album") = Throw TypeError) ->
  settled (playSong catalina (VObj props)) = Rejected TypeError
  /\ submitted (playSong catalina (VObj props)) = []
  /\ console (closure (playSong catalina (VObj props))) = []
  /\ uncaught (playSong catalina (VObj props)) = [].
Proof.
  intros H.
  unfold playSong, new_Promise, settled, property, responseName,
    responseArtist, responseAlbum, substitute, pure, mbind, JS_bind,
    mret, JS_ret.
  fold (field props "name"). fold (field props "artist").
  fold (field props "album").
  destruct (isNotNull (field props "name")) eqn:Pn;
    [destruct (ToString (field props "name")) as [n | e] eqn:Tn;
       [| rewrite (ToString_throws _ _ Tn); repeat split] |].
  all: (destruct (isNotNull (field props "artist")) eqn:Pa;
    [destruct (ToString (field props "artist")) as [a | e] eqn:Ta;
       [| rewrite (ToString_throws _ _ Ta); repeat split] |]).
  all: (destruct (isNotNull (field props "album")) eqn:Pl;
    [destruct (ToString (field props "album")) as [l | e] eqn:Tl;
       [| rewrite (ToString_throws _ _ Tl); repeat split] |]).
  all: exfalso; destruct H as [[Hv Ht] | [[Hv Ht] | [Hv Ht]]];
    apply isNotNull_iff in Hv; congruence.
Qed.
End PlaySong.

(** Dropping the spaces, the submitted predicate is the conjunction of the
    present clauses. *)
Lemma spaced_predicate_despace name artist album :
  despace (spaced_predicate name artist album)
  = despace (spec_predicate name artist album).
Proof.
  unfold spaced_predicate, spec_predicate, present_clauses, clause.
  destruct name, artist, album;
    cbn [app String.concat];
    rewrite ?append_assoc, ?despace_app; cbn; rewrite ?append_empty_r;
    reflexivity.
Qed.

(** C3, as amended: for a selector whose present values convert to
    strings, [playSong] submits one script whose filter predicate holds the
    clause of each present field, in the order name, artist, album, with
    [" and "] before every present clause that follows a present one.  The
    three slots are always joined by single spaces, and a first clause that
    is not name's starts with a space, so an absent field leaves spaces
    behind, as [spaced_predicate] lists case by case; up to space characters
    the predicate is the [" and "]-join of the present clauses.  For
    [{name:"A"}] it is [name is "A"] followed by two spaces; for
    [{name:"A", album:"B"}] it is [name is "A"], three spaces,
    [and album is "B"]. *)
Theorem playSong_predicate_up_to_spaces
    catalina (props : gmap string value) name artist album :
  renders (field props "name") name ->
  renders (field props "artist") artist ->
  renders (field props "album") album ->
  is_Some name \/ is_Some artist \/ is_Some album ->
  (commands (playSong catalina (VObj props))
   = [Execute (play_script catalina (spaced_predicate name artist album))]
   /\ despace (spaced_predicate name artist album)
      = despace (spec_predicate name artist album))
  /\ commands (playSong catalina (selector (Some (VStr "A")) None None))
     = [Execute (play_script catalina
          ("name is " +:+ dq +:+ "A" +:+ dq +:+ "  "))]
  /\ commands (playSong catalina
                 (selector (Some (VStr "A")) None (Some (VStr "B"))))
     = [Execute (play_script catalina
          ("name is " +:+ dq +:+ "A" +:+ dq
           +:+ "   and album is " +:+ dq +:+ "B" +:+ dq))].
Proof.
  intros Hn Ha Hl Hsome. split; [| split].
  - destruct (playSong_submits catalina props _ _ _ Hn Ha Hl Hsome)
      as [_ Hq].
    split.
    + unfold commands. rewrite Hq. reflexivity.
    + apply spaced_predicate_despace.
  - destruct catalina; reflexivity.
  - destruct catalina; reflexivity.
Qed.

Lemma playSong_predicate_up_to_spaces_witness :
  commands (playSong false
              (selector None (Some (VStr "Nina Simone"))
                        (Some (VNum 1965))))
    = [Execute (play_script false
         ("  artist is " +:+ dq +:+ "Nina Simone" +:+ dq
          +:+ "  and album is " +:+ dq +:+ "1965" +:+ dq))]
  /\ despace ("  artist is " +:+ dq +:+ "Nina Simone" +:+ dq
              +:+ "  and album is " +:+ dq +:+ "1965" +:+ dq)
     = despace ("artist is " +:+ dq +:+ "Nina Simone" +:+ dq +:+ " and "
                +:+ "album is " +:+ dq +:+ "1965" +:+ dq).
Proof.
  refine (proj1 (playSong_predicate_up_to_spaces false
                   (list_to_map [("artist", VStr "Nina Simone");
                                 ("album", VNum 1965)])
                   None (Some "Nina Simone") (Some "1965") _ _ _ _)).
  - reflexivity.
  - split; [discriminate | reflexivity].
  - split; [discriminate | reflexivity].
  - right. left. eexists. reflexivity.
Defined.

(** C3, the claim as stated fails: for [{name:"A"}] the joined clauses are
    [name is "A"], and the script submitted is not the one around exactly
    that predicate: two spaces follow the clause. *)
Lemma playSong_name_only_not_exact :
  spec_predicate (Some "A") None None
    = "name is " +:+ dq +:+ "A" +:+ dq
  /\ commands (playSong true (selector (Some (VStr "A")) None None))
     <> [Execute (play_script true ("name is " +:+ dq +:+ "A" +:+ dq))].
Proof.
  split; [reflexivity |].
  intros H. vm_compute in H. discriminate H.
Qed.

(** C8: a selector in which none of name, artist, album is present (left
    out, or set to [undefined]) is rejected with the not-enough-info
    message, and nothing has been handed to the bridge. *)
Theorem playSong_rejects_empty_selector catalina (props : gmap string value) :
  field props "name" = VUndefined ->
  field props "artist" = VUndefined ->
  field props "album" = VUndefined ->
  settled (playSong catalina (VObj props))
    = Rejected (InsufficientSelectorError catalina)
  /\ commands (playSong catalina (VObj props)) = []
  /\ forall error output,
       settled (answer error output (playSong catalina (VObj props)))
       = Rejected (InsufficientSelectorError catalina).
Proof.
  intros Hn Ha Hl.
  destruct (playSong_insufficient catalina props) as [Hs Hq].
  { rewrite Hn, Ha, Hl. reflexivity. }
  split; [exact Hs |]. split.
  - unfold commands. rewrite Hq. reflexivity.
  - intros error output. unfold answer. rewrite Hq. exact Hs.
Qed.

Lemma playSong_rejects_empty_selector_witness :
  settled (playSong true (VObj ∅)) = Rejected (InsufficientSelectorError true)
  /\ commands (playSong true (VObj ∅)) = []
  /\ forall error output,
       settled (answer error output (playSong true (VObj ∅)))
       = Rejected (InsufficientSelectorError true).
Proof.
  apply (playSong_rejects_empty_selector true ∅); reflexivity.
Defined.

(** ** Quoting of caller-supplied strings *)

Lemma length_append (a b : string) :
  String.length (a +:+ b) = String.length a + String.length b.
Proof. induction a as [| x a IH]; simpl; [reflexivity | now rewrite IH]. Qed.

(** A value without quotes and backslashes, put between quotes, is read
    back whole. *)
Lemma literal_body_clean (v rest : string) :
  has_quote v = false -> has_backslash v = false ->
  literal_body (v +:+ dq +:+ rest) = Some (v, rest).
Proof.
  induction v as [| c v IH]; intros Hq Hb; [reflexivity |].
  simpl in Hq, Hb. apply orb_false_iff in Hq as [Hc Hq].
  apply orb_false_iff in Hb as [Hc' Hb].
  cbn [String.append literal_body]. rewrite Hc, Hc', (IH Hq Hb). reflexivity.
Qed.

Lemma literal_body_cons (c : Ascii.ascii) (rest : string) :
  literal_body (String c rest)
  = if is_quote c then Some (EmptyString, rest)
    else if is_backslash c then
      match rest with
      | EmptyString => None
      | String d rest' =>
          prod_map (String (unescape d)) id <$> literal_body rest'
      end
    else prod_map (String c) id <$> literal_body rest.
Proof. reflexivity. Qed.

(** Reading a literal consumes at least its body and the closing quote. *)
Lemma literal_body_length (s : string) :
  (forall b r, literal_body s = Some (b, r) ->
               String.length b + String.length r + 1 <= String.length s)
  /\ (forall c b r, literal_body (String c s) = Some (b, r) ->
               String.length b + String.length r + 1 <= String.length (String c s)).
Proof.
  induction s as [| d s [IHs IHc]].
  - split; [discriminate |].
    intros c b r. rewrite literal_body_cons.
    destruct (is_quote c); [intros [= <- <-]; simpl; lia |].
    destruct (is_backslash c); discriminate.
  - split; [exact (IHc d) |].
    intros c b r H. rewrite literal_body_cons in H.
    destruct (is_quote c).
    { injection H as <- <-. simpl. lia. }
    destruct (is_backslash c).
    + destruct (literal_body s) as [[b' r'] |] eqn:E; [| discriminate].
      injection H as <- <-. specialize (IHs _ _ eq_refl). simpl. lia.
    + destruct (literal_body (String d s)) as [[b' r'] |] eqn:E;
        [| discriminate].
      injection H as <- <-. apply IHc in E. simpl in *. lia.
Qed.

(** A value that is read back whole from between quotes has no quote. *)
Lemma literal_body_whole (v rest : string) :
  literal_body (v +:+ dq +:+ rest) = Some (v, rest) -> has_quote v = false.
Proof.
  induction v as [| c v IH]; [reflexivity |].
  intros H. cbn [String.append has_quote] in *.
  rewrite literal_body_cons in H.
  destruct (is_quote c); [discriminate |].
  destruct (is_backslash c).
  - exfalso.
    destruct (v +:+ dq +:+ rest) as [| d tail] eqn:Etail; [discriminate |].
    destruct (literal_body tail) as [[b' r'] |] eqn:E; [| discriminate].
    injection H as _ <- <-.
    apply (proj1 (literal_body_length tail)) in E.
    apply (f_equal String.length) in Etail.
    rewrite !length_append in Etail. simpl in Etail. lia.
  - destruct (literal_body (v +:+ dq +:+ rest)) as [[b' r'] |] eqn:E;
      [| discriminate].
    injection H as <- <-. simpl. apply IH. reflexivity.
Qed.

(** Whatever the value, if it holds a quote the literal read at its place
    is not the value. *)
Lemma quote_breaks_literal (v rest : string) :
  has_quote v = true ->
  read_literal (dq +:+ v +:+ dq +:+ rest) <> Some (v, rest).
Proof.
  intros Hq H. change (literal_body (v +:+ dq +:+ rest) = Some (v, rest)) in H.
  apply literal_body_whole in H. congruence.
Qed.

Lemma strip_prefix_app (prefix s : string) :
  strip_prefix prefix (prefix +:+ s) = Some s.
Proof.
  induction prefix as [| c prefix IH]; [destruct s; reflexivity |].
  simpl. now rewrite Ascii.eqb_refl.
Qed.

Section Playlists.
Variable catalina : bool.

Lemma playPlaylist_submits name text :
  ToString name = Return text ->
  settled (playPlaylist catalina name) = Pending
  /\ submitted (playPlaylist catalina name)
     = [Submission
          (Execute (tell catalina
             (" to play playlist " +:+ dq +:+ text +:+ dq)))
          message_or_done].
Proof.
  intros Ht.
  unfold playPlaylist, new_Promise, settled, substitute, pure, mbind, JS_bind.
  rewrite Ht. split; reflexivity.
Qed.

Lemma playPlaylist_throws name e :
  ToString name = Throw e ->
  settled (playPlaylist catalina name) = Rejected e
  /\ submitted (playPlaylist catalina name) = []
  /\ console (closure (playPlaylist catalina name)) = []
  /\ uncaught (playPlaylist catalina name) = [].
Proof.
  intros Ht.
  unfold playPlaylist, new_Promise, settled, substitute, pure, mbind, JS_bind.
  rewrite Ht. repeat split.
Qed.

Lemma addToPlaylist_nullish songObject playlist :
  songObject = VUndefined \/ songObject = VNull ->
  settled (addToPlaylist catalina songObject playlist) = Rejected TypeError
  /\ submitted (addToPlaylist catalina songObject playlist) = [].
Proof. intros [-> | ->]; split; reflexivity. Qed.

(** The executor of [addToPlaylist] on a track that can be read: three
    property reads that return, four conversions. *)
Lemma addToPlaylist_unfold songObject playlist :
  nullish songObject = false ->
  addToPlaylist catalina songObject playlist
  = new_Promise (
      name ← substitute (read songObject "name");
      artist ← substitute (read songObject "artist");
      album ← substitute (read songObject "album");
      playlist ← substitute playlist;
      OSA_execute
        (tell catalina
           (" to add (get the location of the first track whose name is "
            +:+ dq +:+ name +:+ dq
            +:+ " and artist is " +:+ dq +:+ artist +:+ dq
            +:+ " and album is " +:+ dq +:+ album +:+ dq
            +:+ ") to playlist " +:+ dq +:+ playlist +:+ dq))
        message_or_done).
Proof.
  intros Hn. destruct songObject; try discriminate Hn; reflexivity.
Qed.

Lemma addToPlaylist_submits songObject playlist name artist album target :
  nullish songObject = false ->
  ToString (read songObject "name") = Return name ->
  ToString (read songObject "artist") = Return artist ->
  ToString (read songObject "album") = Return album ->
  ToString playlist = Return target ->
  settled (addToPlaylist catalina songObject playlist) = Pending
  /\ submitted (addToPlaylist catalina songObject playlist)
     = [Submission
          (Execute (tell catalina
             (" to add (get the location of the first track whose name is "
              +:+ dq +:+ name +:+ dq
              +:+ " and artist is " +:+ dq +:+ artist +:+ dq
              +:+ " and album is " +:+ dq +:+ album +:+ dq
              +:+ ") to playlist " +:+ dq +:+ target +:+ dq)))
          message_or_done].
Proof.
  intros Hn Tn Ta Tl Tp. rewrite (addToPlaylist_unfold _ _ Hn).
  unfold new_Promise, settled, substitute, pure, mbind, JS_bind.
  rewrite Tn, Ta, Tl, Tp. split; reflexivity.
Qed.

(** One of the four values cannot be converted: the template throws and
    nothing is submitted. *)
Lemma addToPlaylist_throws songObject playlist :
  nullish songObject = false ->
  ToString (read songObject "name") = Throw TypeError
  \/ ToString (read songObject "artist") = Throw TypeError
  \/ ToString (read songObject "album") = Throw TypeError
  \/ ToString playlist = Throw TypeError ->
  settled (addToPlaylist catalina songObject playlist) = Rejected TypeError
  /\ submitted (addToPlaylist catalina songObject playlist) = []
  /\ console (closure (addToPlaylist catalina songObject playlist)) = []
  /\ uncaught (addToPlaylist catalina songObject playlist) = [].
Proof.
  intros Hn H. rewrite (addToPlaylist_unfold _ _ Hn).
  unfold new_Promise, settled, substitute, pure, mbind, JS_bind.
  destruct (ToString (read songObject "name")) as [n | e] eqn:Tn;
    [| rewrite (ToString_throws _ _ Tn); repeat split].
  destruct (ToString (read songObject "artist")) as [a | e] eqn:Ta;
    [| rewrite (ToString_throws _ _ Ta); repeat split].
  destruct (ToString (read songObject "album")) as [l | e] eqn:Tl;
    [| rewrite (ToString_throws _ _ Tl); repeat split].
  destruct (ToString playlist) as [p | e] eqn:Tp;
    [| rewrite (ToString_throws _ _ Tp); repeat split].
  exfalso. destruct H as [H | [H | [H | H]]]; discriminate H.
Qed.
End Playlists.

(** A value without quotes is the literal the submitted script carries. *)
Example playPlaylist_plain_name_read_back :
  literal_at (playPlaylist true (VStr "Road Trip"))
             (tell true " to play playlist ")
  = Some "Road Trip".
Proof. reflexivity. Qed.

(** A selector that names a string [v]: the clause holds [v] as it is. *)
Lemma playSong_name_verbatim catalina (v : string) :
  commands (playSong catalina (selector (Some (VStr v)) None None))
  = [Execute (play_script catalina
       ("name is " +:+ dq +:+ v +:+ dq +:+ "  "))].
Proof.
  destruct (playSong_submits catalina (list_to_map [("name", VStr v)])
              (Some v) None None) as [_ Hq].
  - split; [discriminate | reflexivity].
  - reflexivity.
  - reflexivity.
  - left. eexists. reflexivity.
  - change (selector (Some (VStr v)) None None)
      with (VObj (list_to_map [("name", VStr v)])).
    unfold commands. rewrite Hq. cbn [map command]. do 3 f_equal.
    unfold spaced_predicate, clause. rewrite !append_assoc. reflexivity.
Qed.

(** C10: caller-supplied strings are put between the quotes of the
    generated scripts as they are.  For every string, the clause of
    [playSong], the playlist name of [playPlaylist], and the track triple
    and playlist name of [addToPlaylist] hold it verbatim; and for a value
    that holds a double quote, the literal that the script carries at the
    value's place is not the value: it ends at the value's own quote. *)
Theorem quotes_are_not_escaped catalina :
  (forall v : string,
     commands (playSong catalina (selector (Some (VStr v)) None None))
     = [Execute (play_script catalina
          ("name is " +:+ dq +:+ v +:+ dq +:+ "  "))]
     /\ commands (playPlaylist catalina (VStr v))
        = [Execute (tell catalina (" to play playlist " +:+ dq +:+ v +:+ dq))]
     /\ commands (addToPlaylist catalina (track (VStr v) (VStr v) (VStr v))
                                (VStr v))
        = [Execute (tell catalina
             (" to add (get the location of the first track whose name is "
              +:+ dq +:+ v +:+ dq +:+ " and artist is " +:+ dq +:+ v +:+ dq
              +:+ " and album is " +:+ dq +:+ v +:+ dq
              +:+ ") to playlist " +:+ dq +:+ v +:+ dq))])
  /\ exists v : string,
       has_quote v = true
       /\ (exists lit,
             literal_at (playSong catalina (selector (Some (VStr v)) None None))
               (tell catalina " to play (first track whose name is ")
             = Some lit /\ lit <> v)
       /\ (exists lit,
             literal_at (playPlaylist catalina (VStr v))
               (tell catalina " to play playlist ")
             = Some lit /\ lit <> v)
       /\ (exists lit,
             literal_at (addToPlaylist catalina
                           (track (VStr v) (VStr "Prince") (VStr "Kiss"))
                           (VStr "Mixes"))
               (tell catalina
                  " to add (get the location of the first track whose name is ")
             = Some lit /\ lit <> v)
       /\ (exists lit,
             literal_at (addToPlaylist catalina
                           (track (VStr "Kiss") (VStr v) (VStr "Parade"))
                           (VStr "Mixes"))
               (tell catalina
                  (" to add (get the location of the first track whose name is "
                   +:+ dq +:+ "Kiss" +:+ dq +:+ " and artist is "))
             = Some lit /\ lit <> v)
       /\ (exists lit,
             literal_at (addToPlaylist catalina
                           (track (VStr "Kiss") (VStr "Prince") (VStr v))
                           (VStr "Mixes"))
               (tell catalina
                  (" to add (get the location of the first track whose name is "
                   +:+ dq +:+ "Kiss" +:+ dq +:+ " and artist is "
                   +:+ dq +:+ "Prince" +:+ dq +:+ " and album is "))
             = Some lit /\ lit <> v)
       /\ (exists lit,
             literal_at (addToPlaylist catalina
                           (track (VStr "Kiss") (VStr "Prince") (VStr "Parade"))
                           (VStr v))
               (tell catalina
                  (" to add (get the location of the first track whose name is "
                   +:+ dq +:+ "Kiss" +:+ dq +:+ " and artist is "
                   +:+ dq +:+ "Prince" +:+ dq +:+ " and album is "
                   +:+ dq +:+ "Parade" +:+ dq +:+ ") to playlist "))
             = Some lit /\ lit <> v).
Proof.
  split.
  - intros v. split; [apply playSong_name_verbatim |]. split; reflexivity.
  - exists ("12" +:+ dq +:+ " Mix").
    split; [reflexivity |].
    destruct catalina;
      repeat split; exists "12"; (split; [vm_compute; reflexivity | discriminate]).
Qed.

(** ** Settlement of every operation *)

Lemma answer_nothing_submitted error output w :
  submitted w = [] -> answer error output w = w.
Proof. intros H. unfold answer. rewrite H. reflexivity. Qed.

Lemma answer_one_submitted error output w r cb out :
  closure w = Cell Pending out ->
  submitted w = [Submission r cb] ->
  settled (answer error output w)
  = state (snd (cb error output (Cell Pending out))).
Proof.
  intros Hc Hq. unfold answer, settled. rewrite Hq, Hc. simpl.
  destruct (cb error output (Cell Pending out)) as [[u | e] c]; reflexivity.
Qed.

Lemma message_or_done_settles error output out :
  state (snd (message_or_done error output (Cell Pending out))) <> Pending.
Proof.
  unfold message_or_done.
  destruct error as [| | [|] | n | s | l | props]; simpl; try discriminate.
  - destruct (n =? 0)%Z; simpl; discriminate.
  - destruct (String.eqb s EmptyString); simpl; discriminate.
Qed.

Lemma closure_pending w :
  settled w = Pending -> closure w = Cell Pending (console (closure w)).
Proof.
  unfold settled. destruct (closure w) as [st out]. simpl. now intros ->.
Qed.

(** A selector field is absent, or converts, or makes its clause throw. *)
Lemma renders_or_throws v :
  (exists text, renders v text)
  \/ (v <> VUndefined /\ ToString v = Throw TypeError).
Proof.
  destruct (isNotNull v) eqn:Hp.
  - apply isNotNull_iff in Hp.
    destruct (converts_or_throws v) as [[text Ht] | Ht].
    + left. exists (Some text). split; assumption.
    + right. split; assumption.
  - left. exists None. simpl.
    destruct v; try discriminate Hp; reflexivity.
Qed.

Lemma verbose_or_not (isVerbose : value) :
  isVerbose = VBool true \/ isVerbose <> VBool true.
Proof.
  destruct isVerbose as [| | [|] | | | |];
    first [left; reflexivity | right; discriminate].
Qed.

Section Settlement.
Variable catalina : bool.
Variable __dirname : string.

(** What [get] has done when it returns. *)
Lemma get_cases name isVerbose :
  (exists text,
     name = VStr text /\ isValidKey name = true
     /\ settled (get catalina name isVerbose) = Pending
     /\ submitted (get catalina name isVerbose)
        = [Submission
             (Execute (tell catalina
                (" to get the " +:+ text +:+ " of the current track")))
             get_callback])
  \/ (isValidKey name = false
      /\ settled (get catalina name isVerbose)
         = Rejected (InvalidInputError catalina)
      /\ submitted (get catalina name isVerbose) = [])
  \/ (isValidKey name = false /\ isVerbose = VBool true
      /\ ToString name = Throw TypeError
      /\ settled (get catalina name isVerbose) = Rejected TypeError
      /\ submitted (get catalina name isVerbose) = []).
Proof.
  destruct (isValidKey name) eqn:Hk.
  - left. destruct (isValidKey_text name Hk) as [text ->]. exists text.
    destruct (get_valid catalina text isVerbose Hk) as [Hs Hq]. auto 10.
  - right.
    destruct (verbose_or_not isVerbose) as [-> | Hv];
      [destruct (converts_or_throws name) as [Hc | Ht] |].
    + left. destruct (get_invalid catalina name (VBool true) Hk (fun _ => Hc)).
      auto 10.
    + right. destruct (get_invalid_throws catalina name _ Hk Ht)
        as (Hs & Hq & _). auto 10.
    + left. destruct (get_invalid catalina name isVerbose Hk) as [Hs Hq];
        [intros E; contradiction | auto].
Qed.

(** What [playSong] has done with a selector object when it returns. *)
Lemma playSong_cases props :
  (exists name artist album,
     renders (field props "name") name
     /\ renders (field props "artist") artist
     /\ renders (field props "album") album
     /\ (is_Some name \/ is_Some artist \/ is_Some album)
     /\ settled (playSong catalina (VObj props)) = Pending
     /\ submitted (playSong catalina (VObj props))
        = [Submission
             (Execute (play_script catalina
                         (spaced_predicate name artist album)))
             message_or_done])
  \/ (isNotNull (field props "name") || isNotNull (field props "artist")
        || isNotNull (field props "album") = false
      /\ settled (playSong catalina (VObj props))
         = Rejected (InsufficientSelectorError catalina)
      /\ submitted (playSong catalina (VObj props)) = [])
  \/ (((field props "name" <> VUndefined
        /\ ToString (field props "name") = Throw TypeError)
       \/ (field props "artist" <> VUndefined
           /\ ToString (field props "artist") = Throw TypeError)
       \/ (field props "album" <> VUndefined
           /\ ToString (field props "album") = Throw TypeError))
      /\ settled (playSong catalina (VObj props)) = Rejected TypeError
      /\ submitted (playSong catalina (VObj props)) = []).
Proof.
  destruct (renders_or_throws (field props "name")) as [[n Hn] | Tn];
    [| right; right; split; [auto 10 |];
       destruct (playSong_throws catalina props) as (Hs & Hq & _); auto 10].
  destruct (renders_or_throws (field props "artist")) as [[a Ha] | Ta];
    [| right; right; split; [auto 10 |];
       destruct (playSong_throws catalina props) as (Hs & Hq & _); auto 10].
  destruct (renders_or_throws (field props "album")) as [[l Hl] | Tl];
    [| right; right; split; [auto 10 |];
       destruct (playSong_throws catalina props) as (Hs & Hq & _); auto 10].
  assert (Hsome : (is_Some n \/ is_Some a \/ is_Some l)
                  \/ (n = None /\ a = None /\ l = None)).
  { destruct n; [left; left; eexists; reflexivity |].
    destruct a; [left; right; left; eexists; reflexivity |].
    destruct l; [left; right; right; eexists; reflexivity |]. auto. }
  destruct Hsome as [Hsome | (-> & -> & ->)].
  - left. exists n, a, l.
    destruct (playSong_submits catalina props n a l Hn Ha Hl Hsome). auto 10.
  - right. left.
    assert (Hp : isNotNull (field props "name")
                 || isNotNull (field props "artist")
                 || isNotNull (field props "album") = false).
    { now rewrite (renders_present _ _ Hn), (renders_present _ _ Ha),
        (renders_present _ _ Hl). }
    destruct (playSong_insufficient catalina props Hp). auto 10.
Qed.

(** What [playPlaylist] has done when it returns. *)
Lemma playPlaylist_cases name :
  (exists text,
     ToString name = Return text
     /\ settled (playPlaylist catalina name) = Pending
     /\ submitted (playPlaylist catalina name)
        = [Submission
             (Execute (tell catalina
                (" to play playlist " +:+ dq +:+ text +:+ dq)))
             message_or_done])
  \/ (ToString name = Throw TypeError
      /\ settled (playPlaylist catalina name) = Rejected TypeError
      /\ submitted (playPlaylist catalina name) = []).
Proof.
  destruct (converts_or_throws name) as [[text Ht] | Ht].
  - left. exists text. destruct (playPlaylist_submits catalina name text Ht).
    auto 10.
  - right. destruct (playPlaylist_throws catalina name _ Ht) as (Hs & Hq & _).
    auto 10.
Qed.

(** What [addToPlaylist] has done with a readable track when it returns. *)
Lemma addToPlaylist_cases songObject playlist :
  nullish songObject = false ->
  (exists name artist album target,
     ToString (read songObject "name") = Return name
     /\ ToString (read songObject "artist") = Return artist
     /\ ToString (read songObject "album") = Return album
     /\ ToString playlist = Return target
     /\ settled (addToPlaylist catalina songObject playlist) = Pending
     /\ submitted (addToPlaylist catalina songObject playlist)
        = [Submission
             (Execute (tell catalina
                (" to add (get the location of the first track whose name is "
                 +:+ dq +:+ name +:+ dq
                 +:+ " and artist is " +:+ dq +:+ artist +:+ dq
                 +:+ " and album is " +:+ dq +:+ album +:+ dq
                 +:+ ") to playlist " +:+ dq +:+ target +:+ dq)))
             message_or_done])
  \/ ((ToString (read songObject "name") = Throw TypeError
       \/ ToString (read songObject "artist") = Throw TypeError
       \/ ToString (read songObject "album") = Throw TypeError
       \/ ToString playlist = Throw TypeError)
      /\ settled (addToPlaylist catalina songObject playlist)
         = Rejected TypeError
      /\ submitted (addToPlaylist catalina songObject playlist) = []).
Proof.
  intros Hnull.
  destruct (converts_or_throws (read songObject "name")) as [[n Tn] | Tn];
    [| right; split; [auto 10 |];
       destruct (addToPlaylist_throws catalina songObject playlist Hnull)
         as (Hs & Hq & _); auto 10].
  destruct (converts_or_throws (read songObject "artist")) as [[a Ta] | Ta];
    [| right; split; [auto 10 |];
       destruct (addToPlaylist_throws catalina songObject playlist Hnull)
         as (Hs & Hq & _); auto 10].
  destruct (converts_or_throws (read songObject "album")) as [[l Tl] | Tl];
    [| right; split; [auto 10 |];
       destruct (addToPlaylist_throws catalina songObject playlist Hnull)
         as (Hs & Hq & _); auto 10].
  destruct (converts_or_throws playlist) as [[p Tp] | Tp];
    [| right; split; [auto 10 |];
       destruct (addToPlaylist_throws catalina songObject playlist Hnull)
         as (Hs & Hq & _); auto 10].
  left. exists n, a, l, p.
  destruct (addToPlaylist_submits catalina songObject playlist n a l p
              Hnull Tn Ta Tl Tp). auto 10.
Qed.

Lemma get_settles name isVerbose error output :
  outcome_of catalina __dirname (CallGet name isVerbose) error output
  <> Pending.
Proof.
  unfold outcome_of, invoke.
  destruct (get_cases name isVerbose)
    as [(text & _ & _ & Hs & Hq) | [(_ & Hs & Hq) | (_ & _ & _ & Hs & Hq)]].
  - rewrite (answer_one_submitted _ _ _ _ _ _ (closure_pending _ Hs) Hq).
    discriminate.
  - rewrite (answer_nothing_submitted _ _ _ Hq), Hs. discriminate.
  - rewrite (answer_nothing_submitted _ _ _ Hq), Hs. discriminate.
Qed.

Lemma getPlaylistMetadata_settles name error output :
  outcome_of catalina __dirname (CallGetPlaylistMetadata name) error output
  = if ToBoolean error then Rejected error else Fulfilled output.
Proof.
  unfold outcome_of, invoke, answer, settled. simpl.
  unfold getPlaylistMetadata_callback, mbind, JS_bind.
  destruct (ToBoolean error); reflexivity.
Qed.

Lemma getPlayerState_settles error output :
  outcome_of catalina __dirname CallGetPlayerState error output
  = if ToBoolean error then Rejected error
    else Fulfilled (VBool (strict_equals_string output "playing")).
Proof.
  unfold outcome_of, invoke, answer, settled. simpl.
  unfold getPlayerState_callback, mbind, JS_bind.
  destruct (ToBoolean error); reflexivity.
Qed.

Lemma activate_settles error output :
  outcome_of catalina __dirname CallActivate error output <> Pending.
Proof.
  unfold outcome_of, invoke.
  rewrite (answer_one_submitted error output (activate catalina)
             (Execute (tell catalina " to activate")) message_or_done [])
    by reflexivity.
  apply message_or_done_settles.
Qed.

Lemma playSong_settles options error output :
  outcome_of catalina __dirname (CallPlaySong options) error output
  <> Pending.
Proof.
  unfold outcome_of, invoke.
  destruct options as [| | b | n | s | l | props];
    try (rewrite answer_nothing_submitted by reflexivity; discriminate).
  destruct (playSong_cases props)
    as [(n & a & l & _ & _ & _ & _ & Hs & Hq)
       | [(_ & Hs & Hq) | (_ & Hs & Hq)]].
  - rewrite (answer_one_submitted _ _ _ _ _ _ (closure_pending _ Hs) Hq).
    apply message_or_done_settles.
  - rewrite (answer_nothing_submitted _ _ _ Hq), Hs. discriminate.
  - rewrite (answer_nothing_submitted _ _ _ Hq), Hs. discriminate.
Qed.

Lemma playPlaylist_settles name error output :
  outcome_of catalina __dirname (CallPlayPlaylist name) error output
  <> Pending.
Proof.
  unfold outcome_of, invoke.
  destruct (playPlaylist_cases name) as [(text & _ & Hs & Hq) | (_ & Hs & Hq)].
  - rewrite (answer_one_submitted _ _ _ _ _ _ (closure_pending _ Hs) Hq).
    apply message_or_done_settles.
  - rewrite (answer_nothing_submitted _ _ _ Hq), Hs. discriminate.
Qed.

Lemma addToPlaylist_settles songObject playlist error output :
  outcome_of catalina __dirname
    (CallAddToPlaylist songObject playlist) error output
  <> Pending.
Proof.
  unfold outcome_of, invoke.
  destruct (nullish songObject) eqn:Hnull.
  - destruct songObject; try discriminate Hnull;
      rewrite answer_nothing_submitted by reflexivity; discriminate.
  - destruct (addToPlaylist_cases songObject playlist Hnull)
      as [(n & a & l & p & _ & _ & _ & _ & Hs & Hq) | (_ & Hs & Hq)].
    + rewrite (answer_one_submitted _ _ _ _ _ _ (closure_pending _ Hs) Hq).
      apply message_or_done_settles.
    + rewrite (answer_nothing_submitted _ _ _ Hq), Hs. discriminate.
Qed.
End Settlement.

(** C1, on the code: once the bridge has replied, the promise of every
    operation is settled, one way only, except for one call and reply:
    [getMetadata] answered with [undefined] and no error stays pending. *)
Theorem pending_iff_getMetadata_undefined catalina __dirname c error output :
  outcome_of catalina __dirname c error output = Pending
  <-> c = CallGetMetadata /\ ToBoolean error = false /\ output = VUndefined.
Proof.
  split.
  - intros H. destruct c.
    + discriminate H.
    + discriminate H.
    + discriminate H.
    + exfalso. exact (get_settles _ _ _ _ _ _ H).
    + split; [reflexivity |].
      unfold outcome_of, invoke in H.
      destruct (ToBoolean error) eqn:He.
      { rewrite getMetadata_error in H by exact He. discriminate H. }
      split; [reflexivity |].
      destruct output; try reflexivity; exfalso.
      1: rewrite getMetadata_null in H by exact He; discriminate H.
      all: rewrite getMetadata_indexable in H
             by (exact He || discriminate); discriminate H.
    + rewrite getPlaylistMetadata_settles in H.
      destruct (ToBoolean error); discriminate H.
    + rewrite getPlayerState_settles in H.
      destruct (ToBoolean error); discriminate H.
    + exfalso. exact (activate_settles _ _ _ _ H).
    + exfalso. exact (playSong_settles _ _ _ _ _ H).
    + exfalso. exact (playPlaylist_settles _ _ _ _ _ H).
    + exfalso. exact (addToPlaylist_settles _ _ _ _ _ _ H).
  - intros (-> & He & ->). apply getMetadata_undefined. exact He.
Qed.

(** * Further properties of the dispatcher *)

(** ** Replies to the operations that report the bridge's verdict *)

Lemma message_or_done_verdict error output out :
  message_or_done error output (Cell Pending out)
  = (Return tt, Cell (message_verdict error) out).
Proof.
  unfold message_or_done, message_verdict, read.
  destruct error as [| | [|] | n | s | l | props]; try reflexivity.
  - simpl. destruct (n =? 0)%Z; reflexivity.
  - simpl. destruct (String.eqb s EmptyString); reflexivity.
Qed.

(** X1: [getPlayerState] answers [true] exactly for the text "playing"
    reported without an error, [false] for any other reply without an
    error, and rejects with the bridge's error value itself otherwise. *)
Theorem getPlayerState_verdict catalina __dirname error output :
  (ToBoolean error = true
   /\ outcome_of catalina __dirname CallGetPlayerState error output
      = Rejected error)
  \/ (ToBoolean error = false /\ output = VStr "playing"
      /\ outcome_of catalina __dirname CallGetPlayerState error output
         = Fulfilled (VBool true))
  \/ (ToBoolean error = false /\ output <> VStr "playing"
      /\ outcome_of catalina __dirname CallGetPlayerState error output
         = Fulfilled (VBool false)).
Proof.
  rewrite getPlayerState_settles.
  destruct (ToBoolean error); [left; auto | right].
  destruct (strict_equals_string output "playing") eqn:E.
  - left. split; [reflexivity |]. split; [| reflexivity].
    destruct output; try discriminate E.
    simpl in E. apply String.eqb_eq in E. now subst.
  - right. split; [reflexivity |]. split; [| reflexivity].
    intros ->. discriminate E.
Qed.

(** X2: [getPlaylistMetadata] runs the playlist script of the addressed
    application with the caller's name as the variable [playlistName], and
    hands the reply back as it is, whatever its shape; a reported error
    rejects with the error value and the reply is dropped. *)
Theorem getPlaylistMetadata_raw catalina __dirname name error meta :
  commands (getPlaylistMetadata catalina __dirname name)
  = [ExecuteFile
       (__dirname +:+ (if catalina
                       then "/applescript/metadata.playlist.music.applescript"
                       else "/applescript/metadata.playlist.applescript"))
       {[ "playlistName" := name ]}]
  /\ outcome_of catalina __dirname (CallGetPlaylistMetadata name) error meta
     = if ToBoolean error then Rejected error else Fulfilled meta.
Proof.
  split; [destruct catalina; reflexivity |].
  apply getPlaylistMetadata_settles.
Qed.

(** X3: the three transport operations submit their one script and are
    fulfilled with [undefined] on any reply: an error of the bridge is
    never seen by the caller. *)
Theorem transport_never_rejects catalina __dirname error output :
  commands (playPause catalina) = [Execute (tell catalina " to playpause")]
  /\ commands (gotoPrevious catalina)
     = [Execute (tell catalina " to previous track")]
  /\ commands (gotoNext catalina) = [Execute (tell catalina " to next track")]
  /\ outcome_of catalina __dirname CallPlayPause error output
     = Fulfilled VUndefined
  /\ outcome_of catalina __dirname CallGotoPrevious error output
     = Fulfilled VUndefined
  /\ outcome_of catalina __dirname CallGotoNext error output
     = Fulfilled VUndefined.
Proof. repeat split. Qed.

(** X4: [activate], [playPlaylist], [playSong] and [addToPlaylist] settle
    alike once their script was submitted: no error fulfils with
    [undefined], an error rejects with the error's [message] property and
    not with the error itself. *)
Theorem bridge_verdict_is_message catalina __dirname error output :
  outcome_of catalina __dirname CallActivate error output
  = message_verdict error
  /\ (forall name,
        commands (playPlaylist catalina name) <> [] ->
        outcome_of catalina __dirname (CallPlayPlaylist name) error output
        = message_verdict error)
  /\ (forall options,
        commands (playSong catalina options) <> [] ->
        outcome_of catalina __dirname (CallPlaySong options) error output
        = message_verdict error)
  /\ (forall songObject playlist,
        commands (addToPlaylist catalina songObject playlist) <> [] ->
        outcome_of catalina __dirname
          (CallAddToPlaylist songObject playlist) error output
        = message_verdict error).
Proof.
  unfold outcome_of, invoke. split; [| split; [| split]].
  - rewrite (answer_one_submitted error output (activate catalina)
               (Execute (tell catalina " to activate")) message_or_done [])
      by reflexivity.
    now rewrite message_or_done_verdict.
  - intros name Hsub.
    destruct (playPlaylist_cases catalina name)
      as [(text & _ & Hs & Hq) | (_ & _ & Hq)].
    + rewrite (answer_one_submitted _ _ _ _ _ _ (closure_pending _ Hs) Hq).
      now rewrite message_or_done_verdict.
    + exfalso. apply Hsub. unfold commands. now rewrite Hq.
  - intros options Hsub.
    destruct options as [| | b | n | s | l | props];
      try (exfalso; apply Hsub; reflexivity).
    destruct (playSong_cases catalina props)
      as [(n & a & l & _ & _ & _ & _ & Hs & Hq)
         | [(_ & _ & Hq) | (_ & _ & Hq)]].
    + rewrite (answer_one_submitted _ _ _ _ _ _ (closure_pending _ Hs) Hq).
      now rewrite message_or_done_verdict.
    + exfalso. apply Hsub. unfold commands. now rewrite Hq.
    + exfalso. apply Hsub. unfold commands. now rewrite Hq.
  - intros songObject playlist Hsub.
    destruct (nullish songObject) eqn:Hnull.
    { exfalso. apply Hsub.
      destruct songObject; try discriminate Hnull; reflexivity. }
    destruct (addToPlaylist_cases catalina songObject playlist Hnull)
      as [(n & a & l & p & _ & _ & _ & _ & Hs & Hq) | (_ & _ & Hq)].
    + rewrite (answer_one_submitted _ _ _ _ _ _ (closure_pending _ Hs) Hq).
      now rewrite message_or_done_verdict.
    + exfalso. apply Hsub. unfold commands. now rewrite Hq.
Qed.

Lemma bridge_verdict_is_message_witness :
  outcome_of true "/srv/lib"
    (CallPlaySong (selector (Some (VStr "So What")) None None))
    (VObj {[ "message" := VStr "Can't get track." ]}) VUndefined
  = Rejected (VStr "Can't get track.")
  /\ outcome_of true "/srv/lib"
       (CallAddToPlaylist (VObj ∅) (VStr "Jazz")) VNull VUndefined
     = Fulfilled VUndefined.
Proof.
  split.
  - refine (proj1 (proj2 (proj2 (bridge_verdict_is_message true "/srv/lib"
              (VObj {[ "message" := VStr "Can't get track." ]}) VUndefined)))
              (selector (Some (VStr "So What")) None None) _).
    vm_compute. discriminate.
  - refine (proj2 (proj2 (proj2 (bridge_verdict_is_message true "/srv/lib"
              VNull VUndefined))) (VObj ∅) (VStr "Jazz") _).
    vm_compute. discriminate.
Defined.

(** X5: an error that is truthy but not an object (a bare string, a
    number, [true]) has no [message]: [activate], and [playPlaylist] once
    its script was submitted, reject with [undefined] and the bridge's error
    text is lost. *)
Theorem bare_error_loses_its_text catalina __dirname error output :
  ToBoolean error = true ->
  typeof error <> "object" ->
  outcome_of catalina __dirname CallActivate error output = Rejected VUndefined
  /\ forall name,
       commands (playPlaylist catalina name) <> [] ->
       outcome_of catalina __dirname (CallPlayPlaylist name) error output
       = Rejected VUndefined.
Proof.
  intros Ht Hty.
  assert (Hv : message_verdict error = Rejected VUndefined).
  { unfold message_verdict. rewrite Ht.
    destruct error; try discriminate Ht; try reflexivity;
      exfalso; apply Hty; reflexivity. }
  unfold outcome_of, invoke. split.
  - rewrite (answer_one_submitted error output (activate catalina)
               (Execute (tell catalina " to activate")) message_or_done [])
      by reflexivity.
    now rewrite message_or_done_verdict.
  - intros name Hsub.
    destruct (playPlaylist_cases catalina name)
      as [(text & _ & Hs & Hq) | (_ & _ & Hq)].
    + rewrite (answer_one_submitted _ _ _ _ _ _ (closure_pending _ Hs) Hq).
      now rewrite message_or_done_verdict.
    + exfalso. apply Hsub. unfold commands. now rewrite Hq.
Qed.

Lemma bare_error_loses_its_text_witness :
  outcome_of false "/srv/lib" CallActivate (VStr "execution error") VUndefined
  = Rejected VUndefined
  /\ outcome_of false "/srv/lib" (CallPlayPlaylist (VStr "Jazz"))
       (VStr "execution error") VUndefined
     = Rejected VUndefined.
Proof.
  destruct (bare_error_loses_its_text false "/srv/lib"
              (VStr "execution error") VUndefined) as [Ha Hp];
    [reflexivity | discriminate |].
  split; [exact Ha |]. apply Hp. vm_compute. discriminate.
Defined.

(** ** What every operation does before and after the reply *)

Lemma settle_quiet p c :
  fst (settle p c) = Return tt /\ console (snd (settle p c)) = console c.
Proof. destruct c as [[| v | e] out]; split; reflexivity. Qed.

Lemma acknowledge_quiet : quiet acknowledge.
Proof. intros error output c. apply settle_quiet. Qed.

Lemma get_callback_quiet : quiet get_callback.
Proof. intros error output c. apply settle_quiet. Qed.

Lemma message_or_done_quiet : quiet message_or_done.
Proof.
  intros error output c. unfold message_or_done.
  destruct error as [| | [|] | n | s | l | props];
    try apply settle_quiet.
  - simpl. destruct (n =? 0)%Z; apply settle_quiet.
  - simpl. destruct (String.eqb s EmptyString); apply settle_quiet.
Qed.

Lemma getPlaylistMetadata_callback_quiet : quiet getPlaylistMetadata_callback.
Proof.
  intros error output c. unfold getPlaylistMetadata_callback, mbind, JS_bind.
  destruct (ToBoolean error), c as [[| v | e] out]; split; reflexivity.
Qed.

Lemma getPlayerState_callback_quiet : quiet getPlayerState_callback.
Proof.
  intros error output c. unfold getPlayerState_callback, mbind, JS_bind.
  destruct (ToBoolean error), c as [[| v | e] out]; split; reflexivity.
Qed.

(** The try/catch of [getMetadata]'s callback holds the one exception it
    can raise. *)
Lemma getMetadata_callback_quiet : quiet getMetadata_callback.
Proof.
  intros error meta c. unfold getMetadata_callback, mbind, JS_bind.
  destruct (ToBoolean error), meta, c as [[| v | e] out]; split; reflexivity.
Qed.

(** The console and the uncaught exceptions when [get] returns: the one
    line is printed if its template could be built. *)
Lemma get_console catalina name isVerbose :
  uncaught (get catalina name isVerbose) = []
  /\ console (closure (get catalina name isVerbose))
     = match isVerbose, ToString name with
       | VBool true, Return text =>
           [(if isValidKey name then "Valid" else "Invalid")
            +:+ " string recieved: " +:+ text]
       | _, _ => []
       end.
Proof.
  destruct (isValidKey name) eqn:Hk.
  - destruct (isValidKey_text name Hk) as [text ->].
    unfold get, new_Promise, substitute, pure, mbind, JS_bind. rewrite Hk.
    destruct isVerbose as [| | [|] | | | |]; split; reflexivity.
  - unfold get, new_Promise, substitute, pure, mbind, JS_bind. rewrite Hk.
    rewrite !andb_false_r.
    destruct isVerbose as [| | [|] | | | |], (ToString name);
      split; reflexivity.
Qed.

Lemma playSong_silent catalina options :
  uncaught (playSong catalina options) = []
  /\ console (closure (playSong catalina options)) = [].
Proof.
  destruct options as [| | b | n | s | l | props]; try (split; reflexivity).
  unfold playSong, new_Promise, settled, property, responseName,
    responseArtist, responseAlbum, substitute, pure, mbind, JS_bind,
    mret, JS_ret.
  destruct (isNotNull (default VUndefined (props !! "name")));
    [destruct (ToString (default VUndefined (props !! "name")));
       [| split; reflexivity] |].
  all: (destruct (isNotNull (default VUndefined (props !! "artist")));
    [destruct (ToString (default VUndefined (props !! "artist")));
       [| split; reflexivity] |]).
  all: (destruct (isNotNull (default VUndefined (props !! "album")));
    [destruct (ToString (default VUndefined (props !! "album")));
       [| split; reflexivity] |]).
  all: split; reflexivity.
Qed.

Lemma playPlaylist_silent catalina name :
  uncaught (playPlaylist catalina name) = []
  /\ console (closure (playPlaylist catalina name)) = [].
Proof.
  unfold playPlaylist, new_Promise, substitute, pure, mbind, JS_bind.
  destruct (ToString name); split; reflexivity.
Qed.

Lemma addToPlaylist_silent catalina songObject playlist :
  uncaught (addToPlaylist catalina songObject playlist) = []
  /\ console (closure (addToPlaylist catalina songObject playlist)) = [].
Proof.
  destruct (nullish songObject) eqn:Hnull.
  - destruct songObject; try discriminate Hnull; split; reflexivity.
  - rewrite (addToPlaylist_unfold _ _ _ Hnull).
    unfold new_Promise, substitute, pure, mbind, JS_bind.
    destruct (ToString (read songObject "name")); [| split; reflexivity].
    destruct (ToString (read songObject "artist")); [| split; reflexivity].
    destruct (ToString (read songObject "album")); [| split; reflexivity].
    destruct (ToString playlist); split; reflexivity.
Qed.

(** When an operation returns, either it has handed one request to the
    bridge and its promise is pending, or it has handed none and its promise
    is rejected.  Nothing was thrown past it, and only [get] with the flag
    [true] has printed. *)
Lemma invoke_shape catalina __dirname c :
  uncaught (invoke catalina __dirname c) = []
  /\ console (closure (invoke catalina __dirname c))
     = match c with
       | CallGet name (VBool true) =>
           match ToString name with
           | Return text =>
               [(if isValidKey name then "Valid" else "Invalid")
                +:+ " string recieved: " +:+ text]
           | Throw _ => []
           end
       | _ => []
       end
  /\ ((settled (invoke catalina __dirname c) = Pending
       /\ exists r cb,
            submitted (invoke catalina __dirname c) = [Submission r cb]
            /\ quiet cb)
      \/ ((exists e, settled (invoke catalina __dirname c) = Rejected e)
          /\ submitted (invoke catalina __dirname c) = [])).
Proof.
  destruct c; cbn [invoke].
  - repeat split. left. split; [reflexivity |].
    eexists _, _. split; [reflexivity | apply acknowledge_quiet].
  - repeat split. left. split; [reflexivity |].
    eexists _, _. split; [reflexivity | apply acknowledge_quiet].
  - repeat split. left. split; [reflexivity |].
    eexists _, _. split; [reflexivity | apply acknowledge_quiet].
  - destruct (get_console catalina name isVerbose) as [Hu Hc].
    split; [exact Hu |]. split.
    { rewrite Hc. destruct isVerbose as [| | [|] | | | |]; reflexivity. }
    destruct (get_cases catalina name isVerbose)
      as [(text & _ & _ & Hs & Hq) | [(_ & Hs & Hq) | (_ & _ & _ & Hs & Hq)]].
    + left. split; [exact Hs |].
      eexists _, _. split; [exact Hq | apply get_callback_quiet].
    + right. split; [eexists; exact Hs | exact Hq].
    + right. split; [eexists; exact Hs | exact Hq].
  - repeat split. left. split; [reflexivity |].
    eexists _, _. split; [reflexivity | apply getMetadata_callback_quiet].
  - repeat split. left. split; [reflexivity |].
    eexists _, _. split;
      [reflexivity | apply getPlaylistMetadata_callback_quiet].
  - repeat split. left. split; [reflexivity |].
    eexists _, _. split; [reflexivity | apply getPlayerState_callback_quiet].
  - repeat split. left. split; [reflexivity |].
    eexists _, _. split; [reflexivity | apply message_or_done_quiet].
  - destruct (playSong_silent catalina options) as [Hu Hc].
    split; [exact Hu |]. split; [exact Hc |].
    destruct options as [| | b | n | s | l | props];
      try (right; split; [eexists |]; reflexivity).
    destruct (playSong_cases catalina props)
      as [(n & a & l & _ & _ & _ & _ & Hs & Hq)
         | [(_ & Hs & Hq) | (_ & Hs & Hq)]].
    + left. split; [exact Hs |].
      eexists _, _. split; [exact Hq | apply message_or_done_quiet].
    + right. split; [eexists; exact Hs | exact Hq].
    + right. split; [eexists; exact Hs | exact Hq].
  - destruct (playPlaylist_silent catalina name) as [Hu Hc].
    split; [exact Hu |]. split; [exact Hc |].
    destruct (playPlaylist_cases catalina name)
      as [(text & _ & Hs & Hq) | (_ & Hs & Hq)].
    + left. split; [exact Hs |].
      eexists _, _. split; [exact Hq | apply message_or_done_quiet].
    + right. split; [eexists; exact Hs | exact Hq].
  - destruct (addToPlaylist_silent catalina songObject playlist) as [Hu Hc].
    split; [exact Hu |]. split; [exact Hc |].
    destruct (nullish songObject) eqn:Hnull.
    { right. destruct songObject; try discriminate Hnull;
        (split; [eexists |]; reflexivity). }
    destruct (addToPlaylist_cases catalina songObject playlist Hnull)
      as [(n & a & l & p & _ & _ & _ & _ & Hs & Hq) | (_ & Hs & Hq)].
    + left. split; [exact Hs |].
      eexists _, _. split; [exact Hq | apply message_or_done_quiet].
    + right. split; [eexists; exact Hs | exact Hq].
Qed.

Lemma answer_quiet error output w r cb :
  submitted w = [Submission r cb] -> quiet cb ->
  uncaught (answer error output w) = uncaught w
  /\ console (closure (answer error output w)) = console (closure w).
Proof.
  intros Hq Hcb. unfold answer. rewrite Hq.
  destruct (Hcb error output (closure w)) as [Hr Hc].
  destruct (callback _ error output (closure w)) as [[u | e] c] eqn:E;
    cbn [callback] in E; rewrite E in Hr, Hc; simpl in *.
  - auto.
  - discriminate Hr.
Qed.

(** X6: when an operation returns, exactly one of two things has
    happened: one request was handed to the bridge and the promise waits,
    or no request was handed over and the promise is already rejected.  No
    operation submits twice, fulfils before the reply, or submits after
    rejecting. *)
Theorem submits_once_or_rejects catalina __dirname c :
  (settled (invoke catalina __dirname c) = Pending
   /\ length (commands (invoke catalina __dirname c)) = 1)
  \/ ((exists e, settled (invoke catalina __dirname c) = Rejected e)
      /\ commands (invoke catalina __dirname c) = []).
Proof.
  destruct (invoke_shape catalina __dirname c)
    as (_ & _ & [[Hs (r & cb & Hq & _)] | [He Hq]]).
  - left. split; [exact Hs |]. unfold commands. now rewrite Hq.
  - right. split; [exact He |]. unfold commands. now rewrite Hq.
Qed.

(** X7: no exception escapes a callback, for any operation and any reply
    of the bridge: the one read that can throw, the indexing of
    [getMetadata]'s reply, sits inside the try/catch, and [error.message] is
    read from truthy errors only. *)
Theorem no_uncaught_exception catalina __dirname c error output :
  uncaught (answer error output (invoke catalina __dirname c)) = [].
Proof.
  destruct (invoke_shape catalina __dirname c)
    as (Hu & _ & [[_ (r & cb & Hq & Hcb)] | [_ Hq]]).
  - destruct (answer_quiet error output _ _ _ Hq Hcb) as [-> _]. exact Hu.
  - now rewrite (answer_nothing_submitted _ _ _ Hq).
Qed.

(** X8: the console is written by [get] alone, and only when the verbose
    flag is the boolean [true] (a truthy flag of another type prints
    nothing): one line that says whether the field name is valid, printed
    before anything is submitted, and not printed at all when the field name
    cannot be converted to a string.  No callback prints. *)
Theorem console_after_reply catalina __dirname c error output :
  console (closure (answer error output (invoke catalina __dirname c)))
  = match c with
    | CallGet name (VBool true) =>
        match ToString name with
        | Return text =>
            [(if isValidKey name then "Valid" else "Invalid")
             +:+ " string recieved: " +:+ text]
        | Throw _ => []
        end
    | _ => []
    end.
Proof.
  destruct (invoke_shape catalina __dirname c)
    as (_ & Hc & [[_ (r & cb & Hq & Hcb)] | [_ Hq]]).
  - destruct (answer_quiet error output _ _ _ Hq Hcb) as [_ ->]. exact Hc.
  - now rewrite (answer_nothing_submitted _ _ _ Hq).
Qed.

(** X9: the verbose flag of [get] never changes what is submitted, and for
    a field name that converts to a string it does not change how the
    promise settles either; the flag changes the console only. *)
Theorem get_verbose_changes_nothing catalina name flag flag' error output :
  commands (get catalina name flag) = commands (get catalina name flag')
  /\ (converts name ->
      settled (answer error output (get catalina name flag))
      = settled (answer error output (get catalina name flag'))).
Proof.
  destruct (isValidKey name) eqn:Hk.
  - destruct (isValidKey_text name Hk) as [text ->].
    destruct (get_valid catalina text flag Hk) as [Hs Hq].
    destruct (get_valid catalina text flag' Hk) as [Hs' Hq'].
    split; [unfold commands; now rewrite Hq, Hq' |]. intros _.
    rewrite (answer_one_submitted _ _ _ _ _ _ (closure_pending _ Hs) Hq).
    rewrite (answer_one_submitted _ _ _ _ _ _ (closure_pending _ Hs') Hq').
    reflexivity.
  - split.
    + destruct (get_cases catalina name flag)
        as [(? & _ & Hk' & _) | [(_ & _ & Hq) | (_ & _ & _ & _ & Hq)]];
        [congruence | |];
        destruct (get_cases catalina name flag')
          as [(? & _ & Hk' & _) | [(_ & _ & Hq') | (_ & _ & _ & _ & Hq')]];
        try congruence; unfold commands; now rewrite Hq, Hq'.
    + intros Hc.
      destruct (get_invalid catalina name flag Hk (fun _ => Hc)) as [Hs Hq].
      destruct (get_invalid catalina name flag' Hk (fun _ => Hc)) as [Hs' Hq'].
      rewrite !answer_nothing_submitted by assumption. now rewrite Hs, Hs'.
Qed.

Lemma get_verbose_changes_nothing_witness :
  commands (get true (VNum 1959) (VBool true))
  = commands (get true (VNum 1959) VUndefined)
  /\ settled (answer VNull (VStr "x") (get true (VNum 1959) (VBool true)))
     = settled (answer VNull (VStr "x") (get true (VNum 1959) VUndefined)).
Proof.
  destruct (get_verbose_changes_nothing true (VNum 1959) (VBool true)
              VUndefined VNull (VStr "x")) as [Hc Hs].
  split; [exact Hc |]. apply Hs. exists "1959". reflexivity.
Defined.

Lemma tell_to catalina rest :
  tell catalina (" to " +:+ rest) = tell_target catalina +:+ rest.
Proof. destruct catalina; reflexivity. Qed.

(** X10: every inline script an operation submits addresses the one
    application chosen when the module loaded: Music from macOS 10.15 on,
    iTunes before.  It opens with [tell application "Music" to] or
    [tell application "iTunes" to], whatever the caller passed. *)
Theorem scripts_address_target catalina __dirname c script :
  In (Execute script) (commands (invoke catalina __dirname c)) ->
  exists rest, script = tell_target catalina +:+ rest.
Proof.
  intros Hin. destruct c; cbn [invoke] in Hin.
  - destruct Hin as [[= <-] | []]. eexists. rewrite <- tell_to. reflexivity.
  - destruct Hin as [[= <-] | []]. eexists. rewrite <- tell_to. reflexivity.
  - destruct Hin as [[= <-] | []]. eexists. rewrite <- tell_to. reflexivity.
  - unfold commands in Hin.
    destruct (get_cases catalina name isVerbose)
      as [(text & _ & _ & _ & Hq) | [(_ & _ & Hq) | (_ & _ & _ & _ & Hq)]];
      rewrite Hq in Hin; try (destruct Hin; fail).
    destruct Hin as [[= <-] | []].
    eexists. rewrite <- tell_to. reflexivity.
  - destruct Hin as [Hin | []]. discriminate Hin.
  - destruct Hin as [Hin | []]. discriminate Hin.
  - destruct Hin as [[= <-] | []]. eexists. rewrite <- tell_to. reflexivity.
  - destruct Hin as [[= <-] | []]. eexists. rewrite <- tell_to. reflexivity.
  - destruct options as [| | b | n | s | l | props]; try (destruct Hin; fail).
    unfold commands in Hin.
    destruct (playSong_cases catalina props)
      as [(n & a & l & _ & _ & _ & _ & _ & Hq)
         | [(_ & _ & Hq) | (_ & _ & Hq)]];
      rewrite Hq in Hin; try (destruct Hin; fail).
    destruct Hin as [[= <-] | []].
    eexists. unfold play_script. rewrite <- tell_to. reflexivity.
  - unfold commands in Hin.
    destruct (playPlaylist_cases catalina name)
      as [(text & _ & _ & Hq) | (_ & _ & Hq)];
      rewrite Hq in Hin; try (destruct Hin; fail).
    destruct Hin as [[= <-] | []].
    eexists. rewrite <- tell_to. reflexivity.
  - destruct (nullish songObject) eqn:Hnull.
    { destruct songObject; try discriminate Hnull; destruct Hin. }
    unfold commands in Hin.
    destruct (addToPlaylist_cases catalina songObject playlist Hnull)
      as [(n & a & l & p & _ & _ & _ & _ & _ & Hq) | (_ & _ & Hq)];
      rewrite Hq in Hin; try (destruct Hin; fail).
    destruct Hin as [[= <-] | []].
    eexists. rewrite <- tell_to. reflexivity.
Qed.

Lemma scripts_address_target_witness :
  exists rest,
    tell false " to get the album of the current track"
    = tell_target false +:+ rest.
Proof.
  apply (scripts_address_target false "/srv/lib"
           (CallGet (VStr "album") VUndefined)).
  left. reflexivity.
Defined.

(** ** Arguments that are missing or of another type *)

Lemma cannot_convert_invalid name :
  cannot_convert name -> isValidKey name = false.
Proof. destruct name; try discriminate; reflexivity. Qed.

(** X11: an operation rejects with a [TypeError] when it returns, before
    the bridge is contacted, exactly when evaluating an argument throws:
    [playSong] or [addToPlaylist] given [undefined] or [null] for the object
    whose properties they read, or a template given a value it cannot
    convert to a string, which are the field name of [get] under the verbose
    flag, a present selector field of [playSong], the name of
    [playPlaylist], and the track's name, artist, album or the playlist of
    [addToPlaylist]. *)
Theorem type_error_iff_argument_throws catalina __dirname c :
  settled (invoke catalina __dirname c) = Rejected TypeError
  <-> (exists name, c = CallGet name (VBool true) /\ cannot_convert name)
      \/ (exists options,
            c = CallPlaySong options
            /\ (nullish options = true
                \/ (read options "name" <> VUndefined
                    /\ cannot_convert (read options "name"))
                \/ (read options "artist" <> VUndefined
                    /\ cannot_convert (read options "artist"))
                \/ (read options "album" <> VUndefined
                    /\ cannot_convert (read options "album"))))
      \/ (exists name, c = CallPlayPlaylist name /\ cannot_convert name)
      \/ (exists songObject playlist,
            c = CallAddToPlaylist songObject playlist
            /\ (nullish songObject = true
                \/ cannot_convert (read songObject "name")
                \/ cannot_convert (read songObject "artist")
                \/ cannot_convert (read songObject "album")
                \/ cannot_convert playlist)).
Proof.
  split.
  - intros H. destruct c; cbn [invoke] in H; try discriminate H.
    + left.
      destruct (get_cases catalina name isVerbose)
        as [(text & _ & _ & Hs & _)
           | [(_ & Hs & _) | (_ & -> & Ht & _)]].
      * rewrite Hs in H. discriminate H.
      * rewrite Hs in H. discriminate H.
      * exists name. split; [reflexivity | exact Ht].
    + right. left. exists options. split; [reflexivity |].
      destruct options as [| | b | n | s | l | props];
        try (left; reflexivity); try discriminate H.
      right.
      destruct (playSong_cases catalina props)
        as [(n & a & l & _ & _ & _ & _ & Hs & _)
           | [(_ & Hs & _) | (Ht & _)]].
      * rewrite Hs in H. discriminate H.
      * rewrite Hs in H. discriminate H.
      * exact Ht.
    + right. right. left. exists name. split; [reflexivity |].
      destruct (playPlaylist_cases catalina name)
        as [(text & _ & Hs & _) | (Ht & _)].
      * rewrite Hs in H. discriminate H.
      * exact Ht.
    + right. right. right. exists songObject, playlist.
      split; [reflexivity |].
      destruct (nullish songObject) eqn:Hnull; [left; reflexivity | right].
      destruct (addToPlaylist_cases catalina songObject playlist Hnull)
        as [(n & a & l & p & _ & _ & _ & _ & Hs & _) | (Ht & _)].
      * rewrite Hs in H. discriminate H.
      * exact Ht.
  - intros [(name & -> & Ht)
           | [(options & -> & Ho)
             | [(name & -> & Ht)
               | (songObject & playlist & -> & Ho)]]]; cbn [invoke].
    + destruct (get_invalid_throws catalina name TypeError
                  (cannot_convert_invalid _ Ht) Ht) as [Hs _].
      exact Hs.
    + destruct options as [| | b | n | s | l | props];
        try reflexivity;
        try (exfalso;
             destruct Ho as [Ho | [[Ho _] | [[Ho _] | [Ho _]]]];
             [discriminate Ho | apply Ho; reflexivity ..]).
      destruct Ho as [Ho | Ho]; [discriminate Ho |].
      destruct (playSong_throws catalina props Ho) as [Hs _]. exact Hs.
    + destruct (playPlaylist_throws catalina name _ Ht) as [Hs _]. exact Hs.
    + destruct (nullish songObject) eqn:Hnull.
      * destruct songObject; try discriminate Hnull; reflexivity.
      * destruct Ho as [Ho | Ho]; [discriminate Ho |].
        destruct (addToPlaylist_throws catalina songObject playlist Hnull Ho)
          as [Hs _].
        exact Hs.
Qed.

(** X12: [playSong] hands a script to the bridge exactly when one of the
    selector's name, artist, album is not [undefined] and all three convert
    to strings.  The presence test is [typeof ... !== 'undefined'], so
    [null], [false], [0] and the empty string count as present. *)
Theorem playSong_submits_iff_field_defined catalina (props : gmap string value) :
  commands (playSong catalina (VObj props)) <> []
  <-> (field props "name" <> VUndefined
       \/ field props "artist" <> VUndefined
       \/ field props "album" <> VUndefined)
      /\ converts (field props "name")
      /\ converts (field props "artist")
      /\ converts (field props "album").
Proof.
  destruct (playSong_cases catalina props)
    as [(n & a & l & Hn & Ha & Hl & Hsome & _ & Hq)
       | [(Hp & _ & Hq) | (Ht & _ & Hq)]];
    unfold commands; rewrite Hq.
  - split; [intros _ | discriminate].
    assert (Hconv : forall v text, renders v text -> converts v).
    { intros v [s |]; simpl.
      - intros [_ Hs]. exists s. exact Hs.
      - intros ->. exists "undefined". reflexivity. }
    split; [| repeat split; eapply Hconv; eassumption].
    destruct Hsome as [[s ->] | [[s ->] | [s ->]]].
    + left. exact (proj1 Hn).
    + right. left. exact (proj1 Ha).
    + right. right. exact (proj1 Hl).
  - split; [intros Hne; exfalso; apply Hne; reflexivity |].
    intros [Hsome _]. exfalso.
    rewrite <- !isNotNull_iff, <- !orb_true_iff, orb_assoc in Hsome.
    congruence.
  - split; [intros Hne; exfalso; apply Hne; reflexivity |].
    intros (_ & [? Cn] & [? Ca] & [? Cl]). exfalso.
    destruct Ht as [[_ Ht] | [[_ Ht] | [_ Ht]]]; congruence.
Qed.

(** X13: [addToPlaylist] checks nothing.  For every track argument that
    is not [undefined] or [null], once name, artist, album and the playlist
    convert to strings, it submits its script and waits, with the
    conversions as they come: a field the argument lacks goes into the
    script as the text [undefined]. *)
Theorem addToPlaylist_does_not_validate
    catalina songObject playlist name artist album target :
  nullish songObject = false ->
  ToString (read songObject "name") = Return name ->
  ToString (read songObject "artist") = Return artist ->
  ToString (read songObject "album") = Return album ->
  ToString playlist = Return target ->
  settled (addToPlaylist catalina songObject playlist) = Pending
  /\ commands (addToPlaylist catalina songObject playlist)
     = [Execute (tell catalina
          (" to add (get the location of the first track whose name is "
           +:+ dq +:+ name +:+ dq
           +:+ " and artist is " +:+ dq +:+ artist +:+ dq
           +:+ " and album is " +:+ dq +:+ album +:+ dq
           +:+ ") to playlist " +:+ dq +:+ target +:+ dq))].
Proof.
  intros Hnull Tn Ta Tl Tp.
  destruct (addToPlaylist_submits catalina songObject playlist
              name artist album target Hnull Tn Ta Tl Tp) as [Hs Hq].
  split; [exact Hs |]. unfold commands. now rewrite Hq.
Qed.

Lemma addToPlaylist_does_not_validate_witness :
  settled (addToPlaylist true (VObj {[ "name" := VStr "Kiss" ]}) (VStr "Mixes"))
  = Pending
  /\ commands (addToPlaylist true (VObj {[ "name" := VStr "Kiss" ]})
                 (VStr "Mixes"))
     = [Execute (tell true
          (" to add (get the location of the first track whose name is "
           +:+ dq +:+ "Kiss" +:+ dq
           +:+ " and artist is " +:+ dq +:+ "undefined" +:+ dq
           +:+ " and album is " +:+ dq +:+ "undefined" +:+ dq
           +:+ ") to playlist " +:+ dq +:+ "Mixes" +:+ dq))].
Proof.
  apply (addToPlaylist_does_not_validate true
           (VObj {[ "name" := VStr "Kiss" ]}) (VStr "Mixes")
           "Kiss" "undefined" "undefined" "Mixes"); reflexivity.
Defined.

(** X14: script files are run by the two metadata operations only, from
    the [applescript] folder beside the module: [metadata.applescript] and
    [metadata.playlist.applescript] for iTunes, the [.music.applescript]
    variants for Music; the playlist script alone is given a variable, the
    playlist name. *)
Theorem script_files catalina __dirname c path variables :
  In (ExecuteFile path variables) (commands (invoke catalina __dirname c)) ->
  (c = CallGetMetadata
   /\ path = __dirname +:+ "/applescript/metadata."
             +:+ (if catalina then "music.applescript" else "applescript")
   /\ variables = ∅)
  \/ (exists name,
        c = CallGetPlaylistMetadata name
        /\ path = __dirname +:+ "/applescript/metadata.playlist."
                  +:+ (if catalina then "music.applescript" else "applescript")
        /\ variables = {[ "playlistName" := name ]}).
Proof.
  intros Hin. destruct c; cbn [invoke] in *.
  5: { left. destruct Hin as [[= <- <-] | []].
       destruct catalina; repeat split. }
  5: { right. exists name. destruct Hin as [[= <- <-] | []].
       destruct catalina; repeat split. }
  all: exfalso.
  all: try (destruct Hin as [Hin | []]; discriminate Hin).
  - unfold commands in Hin.
    destruct (get_cases catalina name isVerbose)
      as [(text & _ & _ & _ & Hq) | [(_ & _ & Hq) | (_ & _ & _ & _ & Hq)]];
      rewrite Hq in Hin; try (destruct Hin; fail).
    destruct Hin as [Hin | []]. discriminate Hin.
  - destruct options as [| | b | n | s | l | props]; try (destruct Hin; fail).
    unfold commands in Hin.
    destruct (playSong_cases catalina props)
      as [(n & a & l & _ & _ & _ & _ & _ & Hq)
         | [(_ & _ & Hq) | (_ & _ & Hq)]];
      rewrite Hq in Hin; try (destruct Hin; fail).
    destruct Hin as [Hin | []]. discriminate Hin.
  - unfold commands in Hin.
    destruct (playPlaylist_cases catalina name)
      as [(text & _ & _ & Hq) | (_ & _ & Hq)];
      rewrite Hq in Hin; try (destruct Hin; fail).
    destruct Hin as [Hin | []]. discriminate Hin.
  - destruct (nullish songObject) eqn:Hnull.
    { destruct songObject; try discriminate Hnull; destruct Hin. }
    unfold commands in Hin.
    destruct (addToPlaylist_cases catalina songObject playlist Hnull)
      as [(n & a & l & p & _ & _ & _ & _ & _ & Hq) | (_ & _ & Hq)];
      rewrite Hq in Hin; try (destruct Hin; fail).
    destruct Hin as [Hin | []]. discriminate Hin.
Qed.

Lemma script_files_witness :
  (CallGetMetadata = CallGetMetadata
   /\ "/srv/lib" +:+ "/applescript/metadata.music.applescript"
      = "/srv/lib" +:+ "/applescript/metadata." +:+ "music.applescript"
   /\ (∅ : gmap string value) = ∅)
  \/ (exists name,
        CallGetMetadata = CallGetPlaylistMetadata name
        /\ "/srv/lib" +:+ "/applescript/metadata.music.applescript"
           = "/srv/lib" +:+ "/applescript/metadata.playlist."
             +:+ "music.applescript"
        /\ (∅ : gmap string value) = {[ "playlistName" := name ]}).
Proof.
  apply (script_files true "/srv/lib" CallGetMetadata
           ("/srv/lib" +:+ "/applescript/metadata.music.applescript") ∅).
  left. reflexivity.
Defined.

(** ** Feeding fetched metadata back *)

(** Whenever [getMetadata] is fulfilled, its value is the record of the
    reply's slots. *)
Lemma getMetadata_fulfilled catalina __dirname error meta record :
  settled (answer error meta (getMetadata catalina __dirname))
  = Fulfilled record ->
  record = metadata_record meta.
Proof.
  intros H. destruct (ToBoolean error) eqn:He.
  { rewrite getMetadata_error in H by exact He. discriminate H. }
  destruct meta.
  - rewrite getMetadata_undefined in H by exact He. discriminate H.
  - rewrite getMetadata_null in H by exact He. discriminate H.
  - rewrite getMetadata_indexable in H by (exact He || discriminate).
    now injection H as <-.
  - rewrite getMetadata_indexable in H by (exact He || discriminate).
    now injection H as <-.
  - rewrite getMetadata_indexable in H by (exact He || discriminate).
    now injection H as <-.
  - rewrite getMetadata_indexable in H by (exact He || discriminate).
    now injection H as <-.
  - rewrite getMetadata_indexable in H by (exact He || discriminate).
    now injection H as <-.
Qed.

Lemma metadata_record_fields meta :
  read (metadata_record meta) "name" = slot meta 0
  /\ read (metadata_record meta) "artist" = slot meta 1
  /\ read (metadata_record meta) "album" = slot meta 2.
Proof. repeat split. Qed.

(** X15: the record that [getMetadata] resolves with can be handed to
    [addToPlaylist] as it is: once the reply's first three values and the
    playlist convert to strings, the script names the track by those three
    conversions, and the other eight fields play no part. *)
Theorem addToPlaylist_of_fetched_metadata
    catalina __dirname error meta record playlist name artist album target :
  settled (answer error meta (getMetadata catalina __dirname))
  = Fulfilled record ->
  ToString (slot meta 0) = Return name ->
  ToString (slot meta 1) = Return artist ->
  ToString (slot meta 2) = Return album ->
  ToString playlist = Return target ->
  commands (addToPlaylist catalina record playlist)
  = [Execute (tell catalina
       (" to add (get the location of the first track whose name is "
        +:+ dq +:+ name +:+ dq
        +:+ " and artist is " +:+ dq +:+ artist +:+ dq
        +:+ " and album is " +:+ dq +:+ album +:+ dq
        +:+ ") to playlist " +:+ dq +:+ target +:+ dq))].
Proof.
  intros H Tn Ta Tl Tp. apply getMetadata_fulfilled in H. subst record.
  destruct (metadata_record_fields meta) as (Fn & Fa & Fl).
  destruct (addToPlaylist_submits catalina (metadata_record meta) playlist
              name artist album target) as [_ Hq];
    [reflexivity | now rewrite Fn | now rewrite Fa | now rewrite Fl
    | exact Tp |].
  unfold commands. now rewrite Hq.
Qed.

Lemma addToPlaylist_of_fetched_metadata_witness :
  commands (addToPlaylist false
              (metadata_record (VArr [VStr "Kiss"; VStr "Prince"]))
              (VStr "Mixes"))
  = [Execute (tell false
       (" to add (get the location of the first track whose name is "
        +:+ dq +:+ "Kiss" +:+ dq
        +:+ " and artist is " +:+ dq +:+ "Prince" +:+ dq
        +:+ " and album is " +:+ dq +:+ "undefined" +:+ dq
        +:+ ") to playlist " +:+ dq +:+ "Mixes" +:+ dq))].
Proof.
  apply (addToPlaylist_of_fetched_metadata false "/srv/lib" VNull
           (VArr [VStr "Kiss"; VStr "Prince"])
           (metadata_record (VArr [VStr "Kiss"; VStr "Prince"]))
           (VStr "Mixes") "Kiss" "Prince" "undefined" "Mixes");
    reflexivity.
Defined.

(** X16: handed to [playSong], the fetched record selects by the values
    of the reply's first three slots that are not [undefined], once they
    convert to strings: a slot the reply lacks is a field set to
    [undefined], which [playSong] treats as absent, and if all three are
    lacking the call is rejected without a script. *)
Theorem playSong_of_fetched_metadata
    catalina __dirname error meta record name artist album :
  settled (answer error meta (getMetadata catalina __dirname))
  = Fulfilled record ->
  renders (slot meta 0) name ->
  renders (slot meta 1) artist ->
  renders (slot meta 2) album ->
  (is_Some name \/ is_Some artist \/ is_Some album ->
   commands (playSong catalina record)
   = [Execute (play_script catalina (spaced_predicate name artist album))])
  /\ (name = None /\ artist = None /\ album = None ->
      commands (playSong catalina record) = []
      /\ settled (playSong catalina record)
         = Rejected (InsufficientSelectorError catalina)).
Proof.
  intros H Hn Ha Hl. apply getMetadata_fulfilled in H. subst record.
  unfold metadata_record.
  set (props := list_to_map _).
  change (slot meta 0) with (field props "name") in Hn.
  change (slot meta 1) with (field props "artist") in Ha.
  change (slot meta 2) with (field props "album") in Hl.
  split.
  - intros Hsome.
    destruct (playSong_submits catalina props _ _ _ Hn Ha Hl Hsome)
      as [_ Hq].
    unfold commands. now rewrite Hq.
  - intros (-> & -> & ->).
    destruct (playSong_insufficient catalina props) as [Hs Hq].
    { now rewrite (renders_present _ _ Hn), (renders_present _ _ Ha),
        (renders_present _ _ Hl). }
    unfold commands. rewrite Hq. split; [reflexivity | exact Hs].
Qed.

Lemma playSong_of_fetched_metadata_witness :
  commands (playSong true (metadata_record (VArr [VStr "Kiss"])))
  = [Execute (play_script true ("name is " +:+ dq +:+ "Kiss" +:+ dq +:+ "  "))]
  /\ commands (playSong true (metadata_record (VArr []))) = [].
Proof.
  split.
  - assert (H : commands (playSong true (metadata_record (VArr [VStr "Kiss"])))
                = [Execute (play_script true
                     (spaced_predicate (Some "Kiss") None None))]).
    { refine (proj1 (playSong_of_fetched_metadata true "/srv/lib" VNull
                       (VArr [VStr "Kiss"])
                       (metadata_record (VArr [VStr "Kiss"]))
                       (Some "Kiss") None None _ _ _ _) _).
      - vm_compute. reflexivity.
      - split; [discriminate | reflexivity].
      - reflexivity.
      - reflexivity.
      - left. eexists. reflexivity. }
    vm_compute in H |- *. exact H.
  - refine (proj1 (proj2 (playSong_of_fetched_metadata true "/srv/lib" VNull
                     (VArr []) (metadata_record (VArr [])) None None None
                     _ _ _ _) _)).
    + vm_compute. reflexivity.
    + reflexivity.
    + reflexivity.
    + reflexivity.
    + repeat split.
Defined.

(** X17: [getMetadata] reads the first eleven values of a sequence and
    no more: values beyond the eleventh never reach the caller. *)
Theorem getMetadata_ignores_extra_values
    catalina __dirname error (reply : list value) :
  settled (answer error (VArr reply) (getMetadata catalina __dirname))
  = settled (answer error (VArr (take 11 reply))
               (getMetadata catalina __dirname)).
Proof.
  destruct (ToBoolean error) eqn:He.
  - now rewrite !getMetadata_error by exact He.
  - rewrite !getMetadata_indexable by (exact He || discriminate).
    unfold metadata_record, slot, index, mret, JS_ret.
    cbn [fst snd].
    now rewrite !lookup_take_lt by lia.
Qed.

(** ** Which names survive the quoting *)

(** A value read back whole from between quotes has neither a quote nor a
    backslash: either would have been taken as markup. *)
Lemma literal_body_whole_clean (v rest : string) :
  literal_body (v +:+ dq +:+ rest) = Some (v, rest) ->
  has_quote v = false /\ has_backslash v = false.
Proof.
  induction v as [| c v IH]; [split; reflexivity |].
  intros H. cbn [String.append has_quote has_backslash] in *.
  rewrite literal_body_cons in H.
  destruct (is_quote c); [discriminate |].
  destruct (is_backslash c).
  - exfalso.
    destruct (v +:+ dq +:+ rest) as [| d tail] eqn:Etail; [discriminate |].
    destruct (literal_body tail) as [[b' r'] |] eqn:E; [| discriminate].
    injection H as _ <- <-.
    apply (proj1 (literal_body_length tail)) in E.
    apply (f_equal String.length) in Etail.
    rewrite !length_append in Etail. simpl in Etail. lia.
  - destruct (literal_body (v +:+ dq +:+ rest)) as [[b' r'] |] eqn:E;
      [| discriminate].
    injection H as <- <-. simpl. apply IH. reflexivity.
Qed.

Lemma tell_app catalina (a b : string) :
  tell catalina (a +:+ b) = tell catalina a +:+ b.
Proof. unfold tell. now rewrite !append_assoc. Qed.

Lemma length_zero (s : string) : String.length s = 0 -> s = EmptyString.
Proof. destruct s; [reflexivity | discriminate]. Qed.

(** X18: the playlist name that [playPlaylist] puts between quotes is
    the literal the script carries exactly when the name holds no double
    quote and no backslash, reading literals as the script language does
    (closed by the first quote that is not escaped, a backslash escaping
    the next character).  Any other name reaches the application changed,
    cut short or not at all. *)
Theorem playPlaylist_name_survives_iff catalina (v : string) :
  literal_at (playPlaylist catalina (VStr v))
             (tell catalina " to play playlist ")
  = Some v
  <-> has_quote v = false /\ has_backslash v = false.
Proof.
  destruct (playPlaylist_submits catalina (VStr v) v eq_refl) as [_ Hq].
  unfold literal_at, commands. rewrite Hq. cbn [map command].
  unfold literal_after. rewrite tell_app, strip_prefix_app.
  cbn [mbind option_bind].
  change (read_literal (dq +:+ v +:+ dq))
    with (literal_body (v +:+ dq +:+ EmptyString)).
  split.
  - intros H.
    destruct (literal_body (v +:+ dq +:+ EmptyString)) as [[b r] |] eqn:E;
      [| discriminate H].
    injection H as ->.
    pose proof (proj1 (literal_body_length _) _ _ E) as Hlen.
    rewrite !length_append in Hlen. simpl in Hlen.
    assert (r = EmptyString) as -> by (apply length_zero; lia).
    apply (literal_body_whole_clean _ _ E).
  - intros [Hquote Hback].
    now rewrite (literal_body_clean v EmptyString Hquote Hback).
Qed.
